(** * Roster/session fetcher and aggregator of the coaching dashboard

    A shallow embedding of [lib/dataFetcher.ts] ([fetchAllPages],
    [getEmployeeRoster], [getDashboardSessions]), of the session dashboard
    component (the [aggregatedStats] memo, the filters, the counting KPIs
    and the [chartData] memo of the trend chart) and of the name helpers of
    the employee dashboard, together with the properties the specification
    states about them and further properties read off the code.

    Left out: [avgSessions] and [utilization] (floating-point division and
    rounding), [sortEmployees] (locale collation), the search of the
    employee dashboard (it joins every property of an open record), and
    the React state of the components.

    Modelling conventions.
    - A JavaScript string is a [string]; [toLowerCase] and [trim] act on the
      ASCII range (letters [A]-[Z]; blanks 9-13 and 32).
    - An optional field ([x?: string]) is a [field]: [Undefined], [Null]
      (what the store returns for an SQL NULL) or [Val v].
    - A JavaScript number used as a counter or an identifier is a [Z].
    - [new Date(s)] is a parameter [Date_parse]: the time value in
      milliseconds, or [None] for an Invalid Date (NaN). [new Date()] is
      read once per session: [now] for one session, [clock i] for the
      session of index [i] of a run.
    - [Math.random] is a parameter that gives the successive draws.
    - The remote store is a state machine: it answers a request and moves
      to a new state. A run records the requests it issued.
    - Console output is not modelled. *)

From Stdlib Require Import ZArith List String Ascii Bool Lia Arith.
From Stdlib Require Import DecimalString Sorted Permutation.
From Equations Require Import Equations.
Import ListNotations.
Open Scope string_scope.
Open Scope Z_scope.

Set Implicit Arguments.

(* ===================================================================== *)
(** ** JavaScript values and string primitives *)
(* ===================================================================== *)

Module Js.

(** An optional property of a row. *)
Inductive field (A : Type) : Type :=
| Undefined : field A
| Null : field A
| Val : A -> field A.
Arguments Undefined {A}.
Arguments Null {A}.
Arguments Val {A} _.

(** [number | string], the type of identifiers. *)
Inductive ident : Type :=
| IdNum : Z -> ident
| IdStr : string -> ident.

(** ToBoolean on a string: only the empty string is falsy. *)
Definition truthy_string (s : string) : bool :=
  match s with EmptyString => false | String _ _ => true end.

Definition truthy_ident (i : ident) : bool :=
  match i with
  | IdNum z => negb (z =? 0)
  | IdStr s => truthy_string s
  end.

Definition truthy_with {A} (t : A -> bool) (f : field A) : bool :=
  match f with
  | Undefined | Null => false
  | Val a => t a
  end.

Definition truthy (f : field string) : bool := truthy_with truthy_string f.

(** [a || b] on two optional properties. *)
Definition or_with {A} (t : A -> bool) (a b : field A) : field A :=
  if truthy_with t a then a else b.

Definition or_field (a b : field string) : field string :=
  or_with truthy_string a b.

(** [a || 'literal']: the result is a string. *)
Definition or_lit (a : field string) (lit : string) : string :=
  match a with
  | Val s => if truthy_string s then s else lit
  | _ => lit
  end.

(** ToString inside a template literal. *)
Definition template (a : field string) : string :=
  match a with
  | Undefined => "undefined"
  | Null => "null"
  | Val s => s
  end.

(** SameValueZero on identifiers, the key equality of [Map]. *)
Definition ident_eqb (a b : ident) : bool :=
  match a, b with
  | IdNum x, IdNum y => x =? y
  | IdStr x, IdStr y => String.eqb x y
  | _, _ => false
  end.

(** *** [String.prototype.toLowerCase] *)

Definition lower_char (c : ascii) : ascii :=
  let n := nat_of_ascii c in
  if (Nat.leb 65 n && Nat.leb n 90)%bool then ascii_of_nat (n + 32) else c.

Fixpoint toLowerCase (s : string) : string :=
  match s with
  | EmptyString => EmptyString
  | String c r => String (lower_char c) (toLowerCase r)
  end.

(** *** [String.prototype.includes] *)

Fixpoint includes (s pat : string) : bool :=
  if String.prefix pat s then true
  else match s with
       | EmptyString => false
       | String _ r => includes r pat
       end.

(** *** [String.prototype.trim] *)

Definition is_blank (c : ascii) : bool :=
  let n := nat_of_ascii c in
  ((Nat.leb 9 n && Nat.leb n 13) || Nat.eqb n 32)%bool.

Fixpoint trimStart (s : string) : string :=
  match s with
  | EmptyString => EmptyString
  | String c r => if is_blank c then trimStart r else s
  end.

Fixpoint trimEnd (s : string) : string :=
  match s with
  | EmptyString => EmptyString
  | String c r =>
      match trimEnd r with
      | EmptyString => if is_blank c then EmptyString else String c EmptyString
      | r' => String c r'
      end
  end.

Definition trim (s : string) : string := trimEnd (trimStart s).

(** *** [split(' ')] and [join(' ')] *)

Fixpoint split_space (s : string) : list string :=
  match s with
  | EmptyString => [EmptyString]
  | String c r =>
      if Ascii.eqb c " "%char then EmptyString :: split_space r
      else match split_space r with
           | [] => [String c EmptyString]
           | w :: ws => String c w :: ws
           end
  end.

Fixpoint join_space (l : list string) : string :=
  match l with
  | [] => EmptyString
  | [w] => w
  | w :: ws => w ++ " " ++ join_space ws
  end.

(** [a[0]] on the result of a split (never empty). *)
Definition head_str (l : list string) : string :=
  match l with [] => EmptyString | w :: _ => w end.

(** [a.length] of an array. *)
Definition len {A} (l : list A) : Z := Z.of_nat (List.length l).

End Js.

Import Js.

(** Case-insensitive containment, as the specification words it: some
    substring of [text] has the same lower-case form as [pat]. *)
Definition contains_ci (text pat : string) : Prop :=
  exists pre u post,
    text = pre ++ u ++ post /\ toLowerCase u = toLowerCase pat.

(* ===================================================================== *)
(** ** [Map]: insertion-ordered, one binding per key *)
(* ===================================================================== *)

Module JsMap.
Section WithKey.

Context {K V : Type}.
Variable eqb : K -> K -> bool.

Definition t : Type := list (K * V).

Definition empty : t := [].

Fixpoint get (k : K) (m : t) : option V :=
  match m with
  | [] => None
  | (k', v) :: r => if eqb k k' then Some v else get k r
  end.

Definition has (k : K) (m : t) : bool :=
  match get k m with Some _ => true | None => false end.

(** [set] keeps the position of a key that is already bound and appends a
    new key at the end. *)
Fixpoint set (k : K) (v : V) (m : t) : t :=
  match m with
  | [] => [(k, v)]
  | (k', v') :: r => if eqb k k' then (k', v) :: r else (k', v') :: set k v r
  end.

Definition keys (m : t) : list K := map fst m.

(** [Array.from(m.values())] *)
Definition values (m : t) : list V := map snd m.

End WithKey.
End JsMap.

(* ===================================================================== *)
(** ** Data model ([types.ts]) *)
(* ===================================================================== *)

(** The fields of [Employee] that the fetcher writes or the aggregator
    reads. *)
Module Employee.
Record t : Type := mk {
  id : ident;
  first_name : field string;
  last_name : field string;
  full_name : field string;
  name : field string;
  employee_name : field string;
  program : field string;
  program_name : field string;
  account_name : field string;
  company : field string;
  department : field string;
  email : field string;
  company_email : field string;
  avatar_url : field string;
  created_at : field string
}.
End Employee.

(** The joined sub-record [employee_manager] of a session. *)
Module Manager.
Record t : Type := mk {
  first_name : field string;
  last_name : field string;
  full_name : field string;
  program : field string;
  avatar_url : field string
}.
End Manager.

(** [SessionWithEmployee]; [employee_manager] is [None] when it is [null]. *)
Module Session.
Record t : Type := mk {
  id : ident;
  created_at : string;
  session_date : string;
  employee_name : field string;
  status : field string;
  program_name : field string;
  program : field string;
  employee_id : field ident;
  employee_manager : option Manager.t
}.
End Session.

(** One value of [statsMap]. [latestSession] is [None] for [null] and
    [Some d] for a [Date] whose time value is [d]. *)
Module Stat.
Record t : Type := mk {
  id : ident;
  name : string;
  program : string;
  avatar_url : field string;
  completed : Z;
  noshow : Z;
  scheduled : Z;
  total : Z;
  latestSession : option (option Z)
}.

Definition add_total (e : t) : t :=
  mk (id e) (name e) (program e) (avatar_url e)
     (completed e) (noshow e) (scheduled e) (total e + 1) (latestSession e).

Definition add_noshow (e : t) : t :=
  mk (id e) (name e) (program e) (avatar_url e)
     (completed e) (noshow e + 1) (scheduled e) (total e) (latestSession e).

Definition add_completed (e : t) : t :=
  mk (id e) (name e) (program e) (avatar_url e)
     (completed e + 1) (noshow e) (scheduled e) (total e) (latestSession e).

Definition add_scheduled (e : t) : t :=
  mk (id e) (name e) (program e) (avatar_url e)
     (completed e) (noshow e) (scheduled e + 1) (total e) (latestSession e).

Definition set_latest (d : option Z) (e : t) : t :=
  mk (id e) (name e) (program e) (avatar_url e)
     (completed e) (noshow e) (scheduled e) (total e) (Some d).
End Stat.

(* ===================================================================== *)
(** ** The aggregation step ([aggregatedStats]) *)
(* ===================================================================== *)

(** The three status buckets of a session. *)
Inductive Bucket : Type := NoShow | Completed | Scheduled.

(** The [if]/[else if]/[else] chain on [statusRaw] and [isPast]. *)
Definition classify (statusRaw : string) (isPast : bool) : Bucket :=
  if (includes statusRaw "no show" || includes statusRaw "noshow"
      || includes statusRaw "late cancel")%bool
  then NoShow
  else if (includes statusRaw "completed"
           || (String.eqb statusRaw "" && isPast))%bool
  then Completed
  else Scheduled.

(** [a < b] and [a > b] on two [Date]s: false as soon as one is invalid. *)
Definition date_lt (a b : option Z) : bool :=
  match a, b with
  | Some x, Some y => x <? y
  | _, _ => false
  end.

Definition date_gt (a b : option Z) : bool := date_lt b a.

(** [emp.full_name || emp.employee_name || emp.name || 'Unknown'] *)
Definition employee_display_name (emp : Employee.t) : string :=
  or_lit (or_field (or_field (Employee.full_name emp)
                             (Employee.employee_name emp))
                   (Employee.name emp))
         "Unknown".

Definition employee_key (emp : Employee.t) : string :=
  toLowerCase (employee_display_name emp).

(** The object literal stored for a roster employee. *)
Definition roster_stat (emp : Employee.t) : Stat.t :=
  Stat.mk (Employee.id emp) (employee_display_name emp)
    (or_lit (or_field (Employee.program emp) (Employee.program_name emp))
            "Unassigned")
    (Employee.avatar_url emp) 0 0 0 0 None.

(** Step 1 of the memo: one record per roster employee. *)
Definition seed_employee (statsMap : JsMap.t (K:=string) (V:=Stat.t))
    (emp : Employee.t) : JsMap.t :=
  JsMap.set String.eqb (employee_key emp) (roster_stat emp) statsMap.

(** [emp?.x] on the nested reference. *)
Definition opt_chain (emp : option Manager.t)
    (f : Manager.t -> field string) : field string :=
  match emp with
  | None => Undefined
  | Some m => f m
  end.

(** The conditional expression that names the employee of a session. The
    condition is [emp?.full_name || emp?.first_name]: [||] binds tighter
    than [? :]. In the true branch [emp] is not null. *)
Definition session_display_name (session : Session.t) : string :=
  let emp := Session.employee_manager session in
  if truthy (or_field (opt_chain emp Manager.full_name)
                      (opt_chain emp Manager.first_name))
  then trim (template (opt_chain emp Manager.first_name) ++ " "
             ++ or_lit (opt_chain emp Manager.last_name) "")
  else or_lit (Session.employee_name session) "Unknown Employee".

Definition session_key (session : Session.t) : string :=
  toLowerCase (session_display_name session).

(** [session.employee_id || session.id] *)
Definition session_fallback_id (session : Session.t) : ident :=
  match Session.employee_id session with
  | Val i => if truthy_ident i then i else Session.id session
  | _ => Session.id session
  end.

(** [session.status || ''] *)
Definition status_text (session : Session.t) : string :=
  or_lit (Session.status session) "".

Section OneSession.

Variable Date_parse : string -> option Z.

(** [new Date()] at the time the session is processed. *)
Variable now : Z.

Definition session_bucket (session : Session.t) : Bucket :=
  let statusRaw := toLowerCase (status_text session) in
  let sessionDate := Date_parse (Session.session_date session) in
  let isPast := date_lt sessionDate (Some now) in
  classify statusRaw isPast.

(** The record created for a session whose employee is not in the map. *)
Definition fresh_stat (session : Session.t) : Stat.t :=
  Stat.mk (session_fallback_id session) (session_display_name session)
    (or_lit (or_field (Session.program session) (Session.program_name session))
            "Unassigned")
    (opt_chain (Session.employee_manager session) Manager.avatar_url)
    0 0 0 0 None.

(** The updates made to [entry], the object stored under the key. *)
Definition update_entry (session : Session.t) (entry : Stat.t) : Stat.t :=
  let entry1 := Stat.add_total entry in
  let sessionDate := Date_parse (Session.session_date session) in
  let entry2 :=
    match session_bucket session with
    | NoShow => Stat.add_noshow entry1
    | Completed => Stat.add_completed entry1
    | Scheduled => Stat.add_scheduled entry1
    end in
  match Stat.latestSession entry2 with
  | None => Stat.set_latest sessionDate entry2
  | Some latest =>
      if date_gt sessionDate latest then Stat.set_latest sessionDate entry2
      else entry2
  end.

(** Step 2 of the memo, for one session. The entry is an object owned by
    the map alone, so its mutation is a replacement of the value under the
    key. [statsMap.get(key)!] cannot miss after the [set] above it; the
    [None] branch is dead. *)
Definition process_session (statsMap : JsMap.t (K:=string) (V:=Stat.t))
    (session : Session.t) : JsMap.t :=
  let key := session_key session in
  let statsMap1 :=
    if negb (JsMap.has String.eqb key statsMap)
    then JsMap.set String.eqb key (fresh_stat session) statsMap
    else statsMap in
  match JsMap.get String.eqb key statsMap1 with
  | Some entry => JsMap.set String.eqb key (update_entry session entry) statsMap1
  | None => statsMap1
  end.

End OneSession.

Section Aggregation.

Variable Date_parse : string -> option Z.

(** [clock i] is what [new Date()] gives while the session of index [i] is
    processed. *)
Variable clock : nat -> Z.

(** [sessions.forEach], from the session of index [index] on. *)
Fixpoint process_sessions (index : nat) (sessions : list Session.t)
    (statsMap : JsMap.t (K:=string) (V:=Stat.t)) : JsMap.t :=
  match sessions with
  | [] => statsMap
  | session :: rest =>
      process_sessions (S index) rest
        (process_session Date_parse (clock index) statsMap session)
  end.

Definition aggregate_map (sessions : list Session.t)
    (employees : list Employee.t) : JsMap.t :=
  process_sessions 0%nat sessions
    (fold_left seed_employee employees JsMap.empty).

Definition aggregatedStats (sessions : list Session.t)
    (employees : list Employee.t) : list Stat.t :=
  JsMap.values (aggregate_map sessions employees).

End Aggregation.

(** [filteredData.reduce((acc, curr) => acc + curr.total, 0)] *)
Definition totalSessions (filteredData : list Stat.t) : Z :=
  fold_left (fun acc curr => acc + Stat.total curr) filteredData 0.

(* ===================================================================== *)
(** ** The paginated fetch ([fetchAllPages]) *)
(* ===================================================================== *)

(** The [filters] callbacks that the callers pass: the identity and
    [q.not(column, 'is', null)]. *)
Inductive Filter : Type :=
| NoFilter : Filter
| NotNull : string -> Filter.

(** The query sent for one page: table, selection, filter, descending
    order column if any, and the inclusive row range. *)
Module Request.
Record t : Type := mk {
  table : string;
  select : string;
  filter : Filter;
  order : option string;
  from : Z;
  to : Z
}.
End Request.

(** The [{ data, error }] pair of the client: a truthy [error], or [data],
    which may be [null]. *)
Inductive Response (T E : Type) : Type :=
| Failure : E -> Response T E
| Data : option (list T) -> Response T E.
Arguments Failure {T E} _.
Arguments Data {T E} _.

(** How an [async] function ends: it returns a value or it throws. *)
Inductive Outcome (A E : Type) : Type :=
| Returned : A -> Outcome A E
| Thrown : E -> Outcome A E.
Arguments Returned {A E} _.
Arguments Thrown {A E} _.

(** The result of a run together with what it did to the remote store:
    the page requests in the order they were issued and the store's state
    afterwards. *)
Module Run.
Record t (Src A E : Type) : Type := mk {
  outcome : Outcome A E;
  requests : list Request.t;
  store : Src
}.
End Run.

Definition pageSize : Z := 1000.

(** The variables of the [while] loop. [hasMore] is true whenever the loop
    test is reached again, so it is not stored. *)
Module Loop.
Record t (Src T : Type) : Type := mk {
  src : Src;
  page : Z;
  allData : list T;
  reqs : list Request.t
}.
End Loop.

(** What one pass through the loop body leads to. *)
Inductive Step (Src T E : Type) : Type :=
| Done : Run.t Src (list T) E -> Step Src T E
| Continue : Loop.t Src T -> Step Src T E.
Arguments Done {Src T E} _.
Arguments Continue {Src T E} _.

Section FetchAllPages.

Context {Src T E : Type}.

(** The remote store: it answers a request and moves to a new state. *)
Variable run_query : Src -> Request.t -> Response T E * Src.

Variable tableName selectQuery : string.
Variable filters : Filter.
Variable orderBy : option string.

(** [if (orderBy)]: a null or empty column name adds no ordering. *)
Definition applied_order : option string :=
  match orderBy with
  | Some c => if truthy_string c then Some c else None
  | None => None
  end.

Definition page_request (page : Z) : Request.t :=
  Request.mk tableName selectQuery filters applied_order
    (page * pageSize) ((page + 1) * pageSize - 1).

(** One pass through the body of [while (hasMore)]. *)
Definition iteration (st : Loop.t Src T) : Step Src T E :=
  let rq := page_request (Loop.page st) in
  let (resp, src') := run_query (Loop.src st) rq in
  let reqs' := (Loop.reqs st ++ [rq])%list in
  match resp with
  | Failure error =>
      (* [throw error]; the [catch] block logs and rethrows [err] itself *)
      Done (Run.mk (Thrown error) reqs' src')
  | Data data =>
      let '(allData', hasMore) :=
        match data with
        | Some d =>
            if 0 <? len d
            then ((Loop.allData st ++ d)%list, negb (len d <? pageSize))
            else (Loop.allData st, false)
        | None => (Loop.allData st, false)
        end in
      let page' := Loop.page st + 1 in
      if 50 <? page' then Done (Run.mk (Returned allData') reqs' src')
      else if hasMore then Continue (Loop.mk src' page' allData' reqs')
      else Done (Run.mk (Returned allData') reqs' src')
  end.

Lemma iteration_continue (st st' : Loop.t Src T) :
  iteration st = Continue st' ->
  (Z.to_nat (51 - Loop.page st') < Z.to_nat (51 - Loop.page st))%nat.
Proof.
  unfold iteration.
  destruct (run_query (Loop.src st) (page_request (Loop.page st))) as [resp src'].
  destruct resp as [e | data]; [discriminate |].
  destruct (match data with
            | Some d =>
                if 0 <? len d
                then ((Loop.allData st ++ d)%list, negb (len d <? pageSize))
                else (Loop.allData st, false)
            | None => (Loop.allData st, false)
            end) as [allData' hasMore].
  destruct (50 <? Loop.page st + 1) eqn:Hcap; [discriminate |].
  destruct hasMore; [| discriminate].
  intros H; injection H as <-; cbn [Loop.page].
  apply Z.ltb_ge in Hcap. lia.
Qed.

(** Keeps the equation [x = y] while matching on [x]. *)
Definition inspect {A : Type} (x : A) : { y : A | x = y } := exist _ x eq_refl.

Equations? fetch_loop (st : Loop.t Src T) : Run.t Src (list T) E
  by wf (Z.to_nat (51 - Loop.page st)) lt :=
fetch_loop st with inspect (iteration st) := {
  | exist _ (Done r) _ => r
  | exist _ (Continue st') Heq => fetch_loop st' }.
Proof. exact (iteration_continue st Heq). Qed.

(** [silent] only switches console output. *)
Definition fetchAllPages (silent : bool) (src : Src) : Run.t Src (list T) E :=
  fetch_loop (Loop.mk src 0 [] []).

End FetchAllPages.

(* ===================================================================== *)
(** ** The roster ([getEmployeeRoster]) *)
(* ===================================================================== *)

(** A row of [session_tracking] as the fallback reads it ([s: any]): the
    columns it looks at. *)
Module Row.
Record t : Type := mk {
  employee_name : field string;
  employee_id : field ident;
  program : field string;
  program_name : field string;
  Program : field string;
  Program_Name : field string;
  account_name : field string;
  Account_Name : field string;
  department : field string;
  Department : field string;
  email : field string;
  Email : field string;
  email_address : field string;
  company_email : field string;
  Company_Email : field string;
  created_at : field string
}.
End Row.

(** [s.employee_id || name], the key of [uniqueEmployees]. *)
Definition row_key (s : Row.t) (name : string) : ident :=
  match Row.employee_id s with
  | Val i => if truthy_ident i then i else IdStr name
  | _ => IdStr name
  end.

(** [existing?.program] *)
Definition existing_program (existing : option Employee.t) : field string :=
  match existing with
  | None => Undefined
  | Some e => Employee.program e
  end.

(** [!existing?.program && (s.program || s.program_name)], as a test. *)
Definition hasMoreInfo (existing : option Employee.t) (s : Row.t) : bool :=
  (negb (truthy (existing_program existing))
   && truthy (or_field (Row.program s) (Row.program_name s)))%bool.

Section Roster.

(** The successive values of
    [Math.random().toString(36).substr(2, 9)]. *)
Variable random_suffix : nat -> string.

(** [s.employee_id || `gen-${...}`]: a draw is made only when the row has
    no usable id. The second component is the number of draws made. *)
Definition row_id (s : Row.t) (draws : nat) : ident * nat :=
  match Row.employee_id s with
  | Val i =>
      if truthy_ident i then (i, draws)
      else (IdStr ("gen-" ++ random_suffix draws), S draws)
  | _ => (IdStr ("gen-" ++ random_suffix draws), S draws)
  end.

(** The object literal stored for a row. *)
Definition employee_of_row (s : Row.t) (name : string) (draws : nat)
  : Employee.t * nat :=
  let (id, draws') := row_id s draws in
  (Employee.mk id
     (Val (head_str (split_space name)))
     (Val (join_space (tl (split_space name))))
     (Val name)
     Undefined
     Undefined
     (or_field (or_field (or_field (Row.program s) (Row.program_name s))
                         (Row.Program s))
               (Row.Program_Name s))
     Undefined
     (or_field (Row.account_name s) (Row.Account_Name s))
     (or_field (Row.account_name s) (Row.Account_Name s))
     (or_field (or_field (Row.department s) (Row.Department s))
               (Row.account_name s))
     (or_field (or_field (or_field (or_field (Row.email s) (Row.Email s))
                                   (Row.email_address s))
                         (Row.company_email s))
               (Row.Company_Email s))
     (or_field (or_field (Row.company_email s) (Row.Company_Email s))
               (Row.email s))
     Undefined
     (Row.created_at s),
   draws').

(** The body of [sessionData.forEach]; the state is [uniqueEmployees] and
    the number of random draws so far. *)
Definition dedupe_row (st : JsMap.t (K:=ident) (V:=Employee.t) * nat)
    (s : Row.t) : JsMap.t (K:=ident) (V:=Employee.t) * nat :=
  let (uniqueEmployees, draws) := st in
  match Row.employee_name s with
  | Val name =>
      if negb (truthy_string name) then st
      else
        let key := row_key s name in
        let existing := JsMap.get ident_eqb key uniqueEmployees in
        if (match existing with None => true | Some _ => false end
            || hasMoreInfo existing s)%bool
        then
          let (e, draws') := employee_of_row s name draws in
          (JsMap.set ident_eqb key e uniqueEmployees, draws')
        else st
  | _ => st
  end.

Definition extract_employees (sessionData : list Row.t) : list Employee.t :=
  JsMap.values (fst (fold_left dedupe_row sessionData (JsMap.empty, 0%nat))).

Context {Src E : Type}.

(** The client, at the row type of each of the two tables. *)
Variable query_roster : Src -> Request.t -> Response Employee.t E * Src.
Variable query_sessions : Src -> Request.t -> Response Row.t E * Src.

Definition getEmployeeRoster (src : Src) : Run.t Src (list Employee.t) E :=
  let r1 := fetchAllPages query_roster "employee_manager" "*" NoFilter None
              true src in
  let rosterData :=
    match Run.outcome r1 with
    | Returned d => d
    | Thrown _ => []
    end in
  if 0 <? len rosterData
  then Run.mk (Returned rosterData) (Run.requests r1) (Run.store r1)
  else
    let r2 := fetchAllPages query_sessions "session_tracking" "*"
                (NotNull "employee_name") (Some "created_at") false
                (Run.store r1) in
    let reqs := (Run.requests r1 ++ Run.requests r2)%list in
    match Run.outcome r2 with
    | Thrown e => Run.mk (Thrown e) reqs (Run.store r2)
    | Returned sessionData =>
        Run.mk (Returned (extract_employees sessionData)) reqs (Run.store r2)
    end.

End Roster.

(* ===================================================================== *)
(** ** The sessions ([getDashboardSessions]) *)
(* ===================================================================== *)

(** A row of the flat fetch ([rawData], of type [any]): the columns of a
    session and the [Program] column, which the adapter also reads. *)
Module FlatRow.
Record t : Type := mk {
  session : Session.t;
  Program : field string
}.
End FlatRow.

(** The selection of the joined query, as the template literal has it. *)
Definition joinSelect : string :=
  "
        *,
        employee_manager (
          first_name,
          last_name,
          avatar_url
        )
      ".

(** The callback of [rawData.map]: a row without [employee_manager] gets
    one made from its flat columns; the other columns are kept. *)
Definition adapt_session (s : FlatRow.t) : Session.t :=
  let base := FlatRow.session s in
  match Session.employee_manager base with
  | Some _ => base
  | None =>
      let name := or_lit (Session.employee_name base) "Unknown" in
      Session.mk (Session.id base) (Session.created_at base)
        (Session.session_date base) (Session.employee_name base)
        (Session.status base) (Session.program_name base)
        (Session.program base) (Session.employee_id base)
        (Some (Manager.mk
                 (Val (head_str (split_space name)))
                 (Val (join_space (tl (split_space name))))
                 (Val name)
                 (or_field (or_field (Session.program base)
                                     (Session.program_name base))
                           (FlatRow.Program s))
                 Null))
  end.

Section Sessions.

Context {Src E : Type}.

(** The client, at the row types of the joined and of the flat query. *)
Variable query_joined : Src -> Request.t -> Response Session.t E * Src.
Variable query_flat : Src -> Request.t -> Response FlatRow.t E * Src.

Definition getDashboardSessions (src : Src) : Run.t Src (list Session.t) E :=
  let r1 := fetchAllPages query_joined "session_tracking" joinSelect NoFilter
              (Some "session_date") true src in
  match Run.outcome r1 with
  | Returned joinData =>
      Run.mk (Returned joinData) (Run.requests r1) (Run.store r1)
  | Thrown _ =>
      let r2 := fetchAllPages query_flat "session_tracking" "*" NoFilter
                  (Some "created_at") false (Run.store r1) in
      let reqs := (Run.requests r1 ++ Run.requests r2)%list in
      match Run.outcome r2 with
      | Thrown e => Run.mk (Thrown e) reqs (Run.store r2)
      | Returned rawData =>
          Run.mk (Returned (map adapt_session rawData)) reqs (Run.store r2)
      end
  end.

End Sessions.

(* ===================================================================== *)
(** ** Filtering and the KPIs of the session dashboard *)
(* ===================================================================== *)

(** [stat.name.toLowerCase().includes(searchTerm.toLowerCase())] *)
Definition matchesSearch (searchTerm : string) (stat : Stat.t) : bool :=
  includes (toLowerCase (Stat.name stat)) (toLowerCase searchTerm).

(** [filterProgram === 'All' || stat.program === filterProgram] *)
Definition matchesFilter (filterProgram : string) (stat : Stat.t) : bool :=
  (String.eqb filterProgram "All"
   || String.eqb (Stat.program stat) filterProgram)%bool.

Definition filteredData (searchTerm filterProgram : string)
    (aggregatedStats : list Stat.t) : list Stat.t :=
  filter (fun stat => (matchesSearch searchTerm stat
                       && matchesFilter filterProgram stat)%bool)
    aggregatedStats.

Definition totalEmployees (filteredData : list Stat.t) : Z := len filteredData.

(** [filteredData.reduce((acc, curr) => acc + curr.completed, 0)] *)
Definition totalCompleted (filteredData : list Stat.t) : Z :=
  fold_left (fun acc curr => acc + Stat.completed curr) filteredData 0.

(** [Array.from(new Set(a))] on strings: the first occurrence of each
    value, in order. *)
Fixpoint uniq (seen : list string) (a : list string) : list string :=
  match a with
  | [] => []
  | x :: r =>
      if existsb (String.eqb x) seen then uniq seen r
      else x :: uniq (x :: seen) r
  end.

(** The entries of the program filter. *)
Definition programs (aggregatedStats : list Stat.t) : list string :=
  "All" :: uniq []
             (filter (fun p => negb (String.eqb p "Unassigned"))
                (map Stat.program aggregatedStats)).

(* ===================================================================== *)
(** ** The monthly trend ([SimpleTrendChart]) *)
(* ===================================================================== *)

(** The test that decides whether the chart counts a session. *)
Definition chart_counts (status : string) (isPast : bool) : bool :=
  let isNoShow :=
    (includes status "no show" || includes status "noshow"
     || includes status "late cancel")%bool in
  (negb isNoShow
   && (includes status "completed" || (String.eqb status "" && isPast)))%bool.

(** [String(n)] for an integral number, [None] being NaN. *)
Definition number_string (n : option Z) : string :=
  match n with
  | None => "NaN"
  | Some z => NilZero.string_of_int (Z.to_int z)
  end.

(** [s.padStart(2, '0')] *)
Definition padStart2 (s : string) : string :=
  match String.length s with
  | O => "00" ++ s
  | S O => "0" ++ s
  | _ => s
  end.

(** [Array.prototype.sort()] without a comparator orders strings by their
    code units. The keys it is applied to are distinct, so its result is
    the one sorted arrangement of them, whatever the engine's algorithm;
    insertion is used here. *)
Fixpoint sort_insert (k : string) (sorted : list string) : list string :=
  match sorted with
  | [] => [k]
  | h :: r => if String.leb k h then k :: sorted else h :: sort_insert k r
  end.

Fixpoint sort_strings (a : list string) : list string :=
  match a with
  | [] => []
  | k :: r => sort_insert k (sort_strings r)
  end.

(** A point of the chart. *)
Module Point.
Record t : Type := mk { label : string; value : Z }.
End Point.

Section TrendChart.

Variable Date_parse : string -> option Z.
Variable clock : nat -> Z.

(** [getFullYear] and [getMonth] on a valid time value, in the time zone
    of the browser. *)
Variable getFullYear getMonth : Z -> Z.

(** The label of a key: its two parts parsed, made into a date and shown
    by [toLocaleString] with a short month and a two-digit year. *)
Variable month_label : string -> string.

(** [`${getFullYear()}-${String(getMonth() + 1).padStart(2, '0')}`] *)
Definition month_key (sessionDate : option Z) : string :=
  number_string (option_map getFullYear sessionDate) ++ "-"
  ++ padStart2 (number_string
                  (option_map (fun t => getMonth t + 1) sessionDate)).

(** The body of [sessions.forEach], for the session of index [index]. *)
Definition count_session (index : nat)
    (monthlyCounts : JsMap.t (K:=string) (V:=Z)) (s : Session.t) : JsMap.t :=
  let status := toLowerCase (status_text s) in
  let sessionDate := Date_parse (Session.session_date s) in
  let isPast := date_lt sessionDate (Some (clock index)) in
  if chart_counts status isPast
  then
    let key := month_key sessionDate in
    JsMap.set String.eqb key
      (match JsMap.get String.eqb key monthlyCounts with
       | Some n => if n =? 0 then 0 else n
       | None => 0
       end + 1)
      monthlyCounts
  else monthlyCounts.

Fixpoint count_sessions (index : nat) (sessions : list Session.t)
    (monthlyCounts : JsMap.t (K:=string) (V:=Z)) : JsMap.t :=
  match sessions with
  | [] => monthlyCounts
  | s :: rest =>
      count_sessions (S index) rest (count_session index monthlyCounts s)
  end.

Definition monthlyCounts (sessions : list Session.t) : JsMap.t :=
  count_sessions 0%nat sessions JsMap.empty.

(** [monthlyCounts[key]] for a key of the object. *)
Definition count_of (counts : JsMap.t (K:=string) (V:=Z)) (key : string) : Z :=
  match JsMap.get String.eqb key counts with
  | Some n => n
  | None => 0
  end.

(** The memo [chartData]. The two early returns give the empty array, as
    the [map] over no key does. *)
Definition chartData (sessions : list Session.t) : list Point.t :=
  if len sessions =? 0 then []
  else
    let counts := monthlyCounts sessions in
    let sortedKeys := sort_strings (JsMap.keys counts) in
    if len sortedKeys =? 0 then []
    else map (fun key => Point.mk (month_label key) (count_of counts key))
           sortedKeys.

End TrendChart.

(* ===================================================================== *)
(** ** The names shown by the employee dashboard *)
(* ===================================================================== *)

(** [emp.employee_name || emp.full_name || emp.name || ''] *)
Definition roster_fullName (emp : Employee.t) : string :=
  or_lit (or_field (or_field (Employee.employee_name emp)
                             (Employee.full_name emp))
                   (Employee.name emp))
         "".

Definition getFirstName (emp : Employee.t) : string :=
  match Employee.first_name emp with
  | Val (String c r) => String c r
  | _ =>
      let fullName := roster_fullName emp in
      if negb (truthy_string fullName) then "-"
      else head_str (split_space (trim fullName))
  end.

Definition getLastName (emp : Employee.t) : string :=
  match Employee.last_name emp with
  | Val (String c r) => String c r
  | _ =>
      let fullName := roster_fullName emp in
      if negb (truthy_string fullName) then "-"
      else
        let parts := split_space (trim fullName) in
        if 1 <? len parts then join_space (tl parts) else ""
  end.

(* ===================================================================== *)
(** ** Vocabulary of the properties *)
(* ===================================================================== *)

(** A stat record is balanced when its three buckets add up to its total. *)
Definition balanced (e : Stat.t) : Prop :=
  Stat.completed e + Stat.noshow e + Stat.scheduled e = Stat.total e.

(** Every binding is filed under the lower-case form of its display name. *)
Definition keyed (kv : string * Stat.t) : Prop :=
  fst kv = toLowerCase (Stat.name (snd kv)).

(** The entry that a session updates: the stored one, or a fresh one. *)
Definition entry_before (statsMap : JsMap.t) (session : Session.t) : Stat.t :=
  match JsMap.get String.eqb (session_key session) statsMap with
  | Some e => e
  | None => fresh_stat session
  end.

(** The loop states that a run passes through. *)
Inductive reaches {Src T E : Type}
    (iter : Loop.t Src T -> Step Src T E) : Loop.t Src T -> Loop.t Src T -> Prop :=
| reaches_here : forall st, reaches iter st st
| reaches_next : forall st st' st'',
    iter st = Continue st' -> reaches iter st' st'' -> reaches iter st st''.

(* ===================================================================== *)
(** ** Sample data and sample stores *)
(* ===================================================================== *)

Definition sample_manager (first last full : field string) : Manager.t :=
  Manager.mk first last full Undefined Undefined.

Definition sample_session (id : Z) (date : string) (status name : field string)
    (manager : option Manager.t) : Session.t :=
  Session.mk (IdNum id) "2023-10-01T10:00:00Z" date name status
    Undefined Undefined Undefined manager.

Definition sample_employee (id : Z) (full : string) : Employee.t :=
  Employee.mk (IdNum id) Undefined Undefined (Val full) Undefined Undefined
    (Val "Eng") Undefined Undefined Undefined Undefined Undefined Undefined
    Undefined Undefined.

(** A calendar with two days, sitting on both sides of [sample_now]. *)
Definition sample_parse (s : string) : option Z :=
  if String.eqb s "2023-10-25" then Some 1698192000000
  else if String.eqb s "2031-01-01" then Some 1924992000000
  else None.

Definition sample_now : Z := 1700000000000.

(** A clock that advances by a millisecond from one session to the next. *)
Definition sample_clock (i : nat) : Z := sample_now + Z.of_nat i.

Definition late_cancel_session : Session.t :=
  sample_session 11 "2023-10-25" (Val "Client LATE Cancel (24h)")
    (Val "Alice Johnson") None.

Definition blank_past_session : Session.t :=
  sample_session 12 "2023-10-25" (Val "") (Val "Alice Johnson") None.

Definition blank_future_session : Session.t :=
  sample_session 13 "2031-01-01" Null (Val "Alice Johnson") None.

Definition sample_roster : list Employee.t :=
  [sample_employee 1 "Alice Johnson"; sample_employee 2 "Bob Smith"].

Definition sample_sessions : list Session.t :=
  [late_cancel_session; blank_past_session; blank_future_session;
   sample_session 14 "2023-10-25" (Val "Completed") Undefined
     (Some (sample_manager (Val "Carol") (Val "Diaz") Undefined))].

Definition full_name_only_session : Session.t :=
  sample_session 15 "2023-10-25" (Val "Completed") (Val "Alice Johnson")
    (Some (sample_manager Undefined Undefined (Val "Alice Johnson"))).

(** A store that holds one table and answers a range request with the rows
    of that range. Its state counts the requests it has answered. *)
Definition table_store {T E : Type} (rows : list T) (answered : nat)
    (rq : Request.t) : Response T E * nat :=
  (Data (Some (firstn (Z.to_nat (Request.to rq - Request.from rq + 1))
                 (skipn (Z.to_nat (Request.from rq)) rows))),
   S answered).

(** A store whose every page is full. *)
Definition full_store (answered : nat) (rq : Request.t)
  : Response bool unit * nat :=
  (Data (Some (repeat true 1000)), S answered).

(** The error object of the client. *)
Module PostgrestError.
Record t : Type := mk { code : string; message : string }.
End PostgrestError.

(** A store that answers the first request with a full page and fails on
    the second. *)
Definition failing_store (answered : nat) (rq : Request.t)
  : Response bool PostgrestError.t * nat :=
  match answered with
  | O => (Data (Some (repeat true 1000)), 1%nat)
  | S _ => (Failure (PostgrestError.mk "42P01" "relation does not exist"),
            S answered)
  end.

Definition roster_store (answered : nat) (rq : Request.t)
  : Response Employee.t PostgrestError.t * nat :=
  table_store sample_roster answered rq.

Definition no_sessions_store (answered : nat) (rq : Request.t)
  : Response Row.t PostgrestError.t * nat :=
  (Failure (PostgrestError.mk "42P01" "relation does not exist"), S answered).

Definition sample_random (n : nat) : string :=
  "k3x9" ++ String (ascii_of_nat (97 + n)) "".

(** A row of [session_tracking] with an employee id, a name and the four
    program columns. *)
Definition sample_row (id : field ident) (name : string)
    (program program_name Program Program_Name : field string) : Row.t :=
  Row.mk (Val name) id program program_name Program Program_Name
    (Val "Acme") Undefined Undefined Undefined Undefined Undefined Undefined
    Undefined Undefined (Val "2023-10-01T10:00:00Z").

(** The responses that a store in state [src] gives to a sequence of
    requests, and the state it ends in. *)
Fixpoint answers {Src T E : Type}
    (run_query : Src -> Request.t -> Response T E * Src)
    (src : Src) (reqs : list Request.t) : list (Response T E) * Src :=
  match reqs with
  | [] => ([], src)
  | rq :: rest =>
      let (resp, src') := run_query src rq in
      let (resps, src'') := answers run_query src' rest in
      (resp :: resps, src'')
  end.

(** The rows that a response carries. *)
Definition rows_of {T E : Type} (resp : Response T E) : list T :=
  match resp with
  | Data (Some d) => d
  | _ => []
  end.

(** The rows of a table that the inclusive range of a request selects. *)
Definition slice {T : Type} (rows : list T) (rq : Request.t) : list T :=
  firstn (Z.to_nat (Request.to rq - Request.from rq + 1))
    (skipn (Z.to_nat (Request.from rq)) rows).

(** The key of a row that carries a name; a row without a name has
    none. *)
Definition row_keys (s : Row.t) : list ident :=
  match Row.employee_name s with
  | Val name => if truthy_string name then [row_key s name] else []
  | _ => []
  end.

(** The keys of the rows that carry a name, in the order of the rows. *)
Definition named_keys (rows : list Row.t) : list ident :=
  flat_map row_keys rows.

(** The first occurrence of each key that is not in [seen], in order. *)
Fixpoint first_seen (seen : list ident) (l : list ident) : list ident :=
  match l with
  | [] => []
  | k :: r =>
      if existsb (ident_eqb k) seen then first_seen seen r
      else k :: first_seen (seen ++ [k]) r
  end.

Definition flat_row (id : Z) (name status : field string)
    (Program : field string) : FlatRow.t :=
  FlatRow.mk (sample_session id "2023-10-25" status name None) Program.

(** A store of the joined query that knows no relation to join. *)
Definition no_join_store (answered : nat) (rq : Request.t)
  : Response Session.t PostgrestError.t * nat :=
  (Failure (PostgrestError.mk "PGRST200" "could not find a relationship"),
   S answered).

Definition flat_store (answered : nat) (rq : Request.t)
  : Response FlatRow.t PostgrestError.t * nat :=
  table_store [flat_row 31 (Val "Ann Lee") (Val "Completed") (Val "Sales");
               flat_row 32 Null (Val "No Show") Undefined] answered rq.




(** The number of sessions that the aggregator files as completed, the
    session of index [i] being classified at the time [clock i]. *)
Fixpoint completed_from (Date_parse : string -> option Z) (clock : nat -> Z)
    (index : nat) (sessions : list Session.t) : Z :=
  match sessions with
  | [] => 0
  | s :: rest =>
      match session_bucket Date_parse (clock index) s with
      | Completed => 1
      | _ => 0
      end + completed_from Date_parse clock (S index) rest
  end.

(** The sum of the values of the points of a chart. *)
Definition chart_total (points : list Point.t) : Z :=
  fold_right (fun p acc => Point.value p + acc) 0 points.

(** The record of Alice Johnson in the aggregation of the sample data. *)
Definition sample_alice_record : Stat.t :=
  Stat.mk (IdNum 1) "Alice Johnson" "Eng" Undefined 1 1 1 3
    (Some (Some 1924992000000)).


Definition rows_of_42 : list Row.t :=
  [sample_row (Val (IdStr "42")) "Ann Lee" Null Undefined Undefined Undefined;
   sample_row (Val (IdStr "42")) "Ann Lee" (Val "Coaching") Undefined
     Undefined Undefined;
   sample_row (Val (IdStr "42")) "Ann Lee" (Val "Sales") Undefined
     Undefined Undefined].

Section ReplayedState.

Context {Src T E : Type}.
Variable run_query : Src -> Request.t -> Response T E * Src.
Variable tableName selectQuery : string.
Variable filters : Filter.
Variable orderBy : option string.

(** The state of a run after some passes: its rows are those of the
    responses so far, and its requests are the first pages. *)
Definition replayed (src0 : Src) (st : Loop.t Src T) : Prop :=
  0 <= Loop.page st <= 50
  /\ Loop.reqs st
     = map (fun i => page_request tableName selectQuery filters orderBy
                       (Z.of_nat i))
         (seq 0 (Z.to_nat (Loop.page st)))
  /\ snd (answers run_query src0 (Loop.reqs st)) = Loop.src st
  /\ Loop.allData st
     = List.concat (map rows_of (fst (answers run_query src0 (Loop.reqs st)))).

End ReplayedState.


(** No counter of a record is negative. *)
Definition counted (e : Stat.t) : Prop :=
  0 <= Stat.completed e /\ 0 <= Stat.noshow e /\ 0 <= Stat.scheduled e
  /\ 0 <= Stat.total e.

(** The sum of the counts of a map. *)
Definition counts_total (counts : JsMap.t (K:=string) (V:=Z)) : Z :=
  fold_right (fun kv acc => snd kv + acc) 0 counts.

(** *** Names within ASCII

    On a string of ASCII characters [toLowerCase] and [trim] above are
    [String.prototype.toLowerCase] and [String.prototype.trim]. The
    properties that depend on a lower-cased key or on a trimmed name are
    stated for such names. *)

Definition ascii_char (c : ascii) : bool := Nat.ltb (nat_of_ascii c) 128.

Fixpoint ascii_only (s : string) : bool :=
  match s with
  | EmptyString => true
  | String c r => (ascii_char c && ascii_only r)%bool
  end.

Definition ascii_field (f : field string) : bool :=
  match f with
  | Val s => ascii_only s
  | _ => true
  end.

(** The name columns that the aggregator lower-cases of a roster employee. *)
Definition ascii_employee (emp : Employee.t) : bool :=
  (ascii_field (Employee.full_name emp)
   && ascii_field (Employee.employee_name emp)
   && ascii_field (Employee.name emp))%bool.

(** The columns of a session that the aggregator trims or lower-cases:
    its names and its status. *)
Definition ascii_session (s : Session.t) : bool :=
  (ascii_field (Session.employee_name s)
   && ascii_field (Session.status s)
   && match Session.employee_manager s with
      | Some m => ascii_field (Manager.first_name m)
                  && ascii_field (Manager.last_name m)
      | None => true
      end)%bool.

(** The last employee of a roster that has the key [k]. *)
Definition last_with_key (k : string) (employees : list Employee.t)
  : option Employee.t :=
  fold_left (fun found emp =>
               if String.eqb (employee_key emp) k then Some emp else found)
    employees None.

(** Two roster employees whose names differ by their letter case only. *)
Definition john_lower : Employee.t := sample_employee 1 "John Smith".
Definition john_upper : Employee.t := sample_employee 2 "JOHN SMITH".

(** A roster employee named by its [first_name] and [last_name] columns
    only, as the employees of [MOCK_EMPLOYEES] are. *)
Definition mock_employee (id : Z) (first last program : string)
  : Employee.t :=
  Employee.mk (IdNum id) (Val first) (Val last) Undefined Undefined Undefined
    (Val program) Undefined Undefined Undefined Undefined Undefined Undefined
    Undefined Undefined.

Definition mock_roster : list Employee.t :=
  [mock_employee 1 "Alice" "Johnson" "Engineering";
   mock_employee 2 "Bob" "Smith" "Design";
   mock_employee 3 "Charlie" "Davis" "Marketing"].

(** An employee of the roster table with an [employee_name] column only. *)
Definition mary_ann_smith : Employee.t :=
  Employee.mk (IdNum 7) Undefined Null Undefined (Val "  Mary Ann  Smith ")
    Undefined Undefined Undefined Undefined Undefined Undefined Undefined
    Undefined Undefined Undefined.

(* ===================================================================== *)
(** * Properties *)
(* ===================================================================== *)

(** ** Strings *)

Example toLowerCase_example : toLowerCase "Late Cancel" = "late cancel".
Proof. reflexivity. Qed.

Example trim_example : trim "  Alice  Johnson " = "Alice  Johnson".
Proof. reflexivity. Qed.

Example split_example :
  split_space "Ann Lee Roy" = ["Ann"; "Lee"; "Roy"]
  /\ join_space (tl (split_space "Ann Lee Roy")) = "Lee Roy"
  /\ join_space (tl (split_space "Ann")) = "".
Proof. repeat split; reflexivity. Qed.

Example includes_example :
  includes "client no show" "no show" = true
  /\ includes "done" "no show" = false.
Proof. split; reflexivity. Qed.

Lemma prefix_app (p s : string) :
  String.prefix p s = true <-> exists post, s = p ++ post.
Proof.
  revert s; induction p as [| c p IH]; intros s; simpl.
  - split; [exists s; reflexivity | destruct s; reflexivity].
  - destruct s as [| d s]; simpl.
    + split; [discriminate | intros [post H]; discriminate].
    + destruct (ascii_dec c d) as [-> | Hne].
      * rewrite IH. split; intros [post H]; exists post; congruence.
      * split; [discriminate | intros [post H]; congruence].
Qed.

Lemma includes_unfold (s pat : string) :
  includes s pat =
  if String.prefix pat s then true
  else match s with
       | EmptyString => false
       | String _ r => includes r pat
       end.
Proof. destruct s; reflexivity. Qed.

Lemma includes_app (s pat : string) :
  includes s pat = true <-> exists pre post, s = pre ++ pat ++ post.
Proof.
  induction s as [| c s IH]; rewrite includes_unfold.
  - destruct (String.prefix pat "") eqn:Hp.
    + split; [| reflexivity]. intros _.
      apply prefix_app in Hp as [post Hp]. exists "", post. exact Hp.
    + split; [discriminate |]. intros ([| d pre] & post & H).
      * assert (String.prefix pat "" = true) by (apply prefix_app; eauto).
        congruence.
      * discriminate.
  - destruct (String.prefix pat (String c s)) eqn:Hp.
    + split; [| reflexivity]. intros _.
      apply prefix_app in Hp as [post Hp]. exists "", post. exact Hp.
    + rewrite IH. split.
      * intros (pre & post & ->). exists (String c pre), post. reflexivity.
      * intros ([| d pre] & post & H).
        -- assert (String.prefix pat (String c s) = true)
             by (apply prefix_app; eauto).
           congruence.
        -- simpl in H. injection H as _ ->. eauto.
Qed.

Lemma toLowerCase_app (a b : string) :
  toLowerCase (a ++ b) = toLowerCase a ++ toLowerCase b.
Proof. induction a as [| c a IH]; simpl; [| rewrite IH]; reflexivity. Qed.

(** ** Maps *)

Section MapFacts.

Context {K V : Type}.
Variable eqb : K -> K -> bool.
Hypothesis eqb_eq : forall a b, eqb a b = true <-> a = b.

Local Abbreviation get := (JsMap.get eqb).
Local Abbreviation set := (JsMap.set eqb).

Lemma eqb_refl' (a : K) : eqb a a = true.
Proof. apply eqb_eq; reflexivity. Qed.

Lemma eqb_neq (a b : K) : a <> b -> eqb a b = false.
Proof.
  intros H. destruct (eqb a b) eqn:E; [| reflexivity].
  apply eqb_eq in E. contradiction.
Qed.

Lemma get_set_same (k : K) (v : V) (m : JsMap.t) : get k (set k v m) = Some v.
Proof.
  induction m as [| [k' v'] m IH]; simpl.
  - rewrite eqb_refl'. reflexivity.
  - destruct (eqb k k') eqn:E; simpl; rewrite E; [reflexivity | exact IH].
Qed.

Lemma get_set_other (k k' : K) (v : V) (m : JsMap.t) :
  k' <> k -> get k' (set k v m) = get k' m.
Proof.
  intros Hne. induction m as [| [k0 v0] m IH]; simpl.
  - rewrite eqb_neq by assumption. reflexivity.
  - destruct (eqb k k0) eqn:E; simpl.
    + apply eqb_eq in E; subst k0. rewrite eqb_neq by assumption. reflexivity.
    + rewrite IH. reflexivity.
Qed.

Lemma get_None_not_in (k : K) (m : JsMap.t (V:=V)) :
  get k m = None <-> ~ In k (JsMap.keys m).
Proof.
  induction m as [| [k0 v0] m IH]; simpl.
  - tauto.
  - destruct (eqb k k0) eqn:E.
    + apply eqb_eq in E; subst. split; [discriminate | tauto].
    + rewrite IH. split.
      * intros H [-> | Hin]; [rewrite eqb_refl' in E; discriminate | tauto].
      * tauto.
Qed.

Lemma keys_set (k : K) (v : V) (m : JsMap.t) :
  JsMap.keys (set k v m) =
  match get k m with
  | Some _ => JsMap.keys m
  | None => (JsMap.keys m ++ [k])%list
  end.
Proof.
  induction m as [| [k0 v0] m IH]; simpl; [reflexivity |].
  destruct (eqb k k0) eqn:E; simpl; [reflexivity |].
  rewrite IH. destruct (get k m); reflexivity.
Qed.

Lemma NoDup_keys_set (k : K) (v : V) (m : JsMap.t) :
  NoDup (JsMap.keys m) -> NoDup (JsMap.keys (set k v m)).
Proof.
  intros Hnd. rewrite keys_set. destruct (get k m) eqn:G; [exact Hnd |].
  apply get_None_not_in in G.
  apply NoDup_rev in Hnd. rewrite <- (rev_involutive (_ ++ _)%list).
  apply NoDup_rev. rewrite rev_app_distr. simpl.
  constructor; [rewrite <- in_rev; exact G | exact Hnd].
Qed.

(** A property of every stored value survives a [set] of a value that
    has it. *)
Lemma Forall_values_set (P : V -> Prop) (k : K) (v : V) (m : JsMap.t) :
  P v -> Forall P (JsMap.values m) -> Forall P (JsMap.values (set k v m)).
Proof.
  intros Hv. induction m as [| [k0 v0] m IH]; simpl; intros Hm.
  - constructor; [exact Hv | constructor].
  - inversion Hm; subst. destruct (eqb k k0); simpl; constructor; auto.
Qed.

Lemma get_In_values (k : K) (v : V) (m : JsMap.t) :
  get k m = Some v -> In v (JsMap.values m).
Proof.
  induction m as [| [k0 v0] m IH]; simpl; [discriminate |].
  destruct (eqb k k0); [intros H; injection H as ->; auto | auto].
Qed.

(** The binding of a key splits the map around it. *)
Lemma get_split (k : K) (v : V) (m : JsMap.t) :
  NoDup (JsMap.keys m) -> get k m = Some v ->
  exists m1 m2, m = (m1 ++ (k, v) :: m2)%list
                /\ ~ In k (JsMap.keys m1) /\ ~ In k (JsMap.keys m2).
Proof.
  induction m as [| [k0 v0] m IH]; simpl; [discriminate |].
  intros Hnd G. inversion Hnd as [| ? ? Hnotin Hnd']; subst.
  destruct (eqb k k0) eqn:E.
  - apply eqb_eq in E; subst k0. injection G as ->.
    exists [], m. simpl. tauto.
  - destruct (IH Hnd' G) as (m1 & m2 & -> & H1 & H2).
    exists ((k0, v0) :: m1), m2. simpl. repeat split; [| exact H2].
    intros [-> | Hin]; [rewrite eqb_refl' in E; discriminate | tauto].
Qed.

(** The same for a property of the bindings. *)
Lemma Forall_set (Q : K * V -> Prop) (k : K) (v : V) (m : JsMap.t) :
  Q (k, v) -> Forall Q m -> Forall Q (set k v m).
Proof.
  intros Hv. induction m as [| [k0 v0] m IH]; simpl; intros Hm.
  - constructor; [exact Hv | constructor].
  - inversion Hm; subst. destruct (eqb k k0) eqn:E; constructor; auto.
    apply eqb_eq in E; subst k0. exact Hv.
Qed.

End MapFacts.

Lemma string_eqb_eq (a b : string) : String.eqb a b = true <-> a = b.
Proof. apply String.eqb_eq. Qed.

Lemma ident_eqb_eq (a b : ident) : ident_eqb a b = true <-> a = b.
Proof.
  destruct a as [x | x], b as [y | y]; simpl.
  - rewrite Z.eqb_eq. split; congruence.
  - split; discriminate.
  - split; discriminate.
  - rewrite String.eqb_eq. split; congruence.
Qed.

(** ** Status classification *)

Lemma contains_ci_includes (text pat : string) :
  contains_ci text pat -> includes (toLowerCase text) (toLowerCase pat) = true.
Proof.
  intros (pre & u & post & -> & Hu).
  apply includes_app. exists (toLowerCase pre), (toLowerCase post).
  rewrite !toLowerCase_app, Hu. reflexivity.
Qed.

Section ClassificationFacts.

Variable Date_parse : string -> option Z.
Variable now : Z.


Lemma update_entry_counters (session : Session.t) (entry : Stat.t) :
  let entry' := update_entry Date_parse now session entry in
  Stat.total entry' = Stat.total entry + 1
  /\ match session_bucket Date_parse now session with
     | NoShow =>
         Stat.noshow entry' = Stat.noshow entry + 1
         /\ Stat.completed entry' = Stat.completed entry
         /\ Stat.scheduled entry' = Stat.scheduled entry
     | Completed =>
         Stat.noshow entry' = Stat.noshow entry
         /\ Stat.completed entry' = Stat.completed entry + 1
         /\ Stat.scheduled entry' = Stat.scheduled entry
     | Scheduled =>
         Stat.noshow entry' = Stat.noshow entry
         /\ Stat.completed entry' = Stat.completed entry
         /\ Stat.scheduled entry' = Stat.scheduled entry + 1
     end.
Proof.
  unfold update_entry.
  destruct (session_bucket Date_parse now session); cbn [Stat.latestSession Stat.add_noshow
    Stat.add_completed Stat.add_scheduled Stat.add_total];
    destruct (Stat.latestSession entry) as [latest |];
    try destruct (date_gt _ latest); cbn; auto.
Qed.

Lemma update_entry_identity (session : Session.t) (entry : Stat.t) :
  Stat.id (update_entry Date_parse now session entry) = Stat.id entry
  /\ Stat.name (update_entry Date_parse now session entry) = Stat.name entry
  /\ Stat.program (update_entry Date_parse now session entry) = Stat.program entry.
Proof.
  unfold update_entry.
  destruct (session_bucket Date_parse now session); cbn [Stat.latestSession Stat.add_noshow
    Stat.add_completed Stat.add_scheduled Stat.add_total];
    destruct (Stat.latestSession entry) as [latest |];
    try destruct (date_gt _ latest); cbn; auto.
Qed.

(** C8. A session whose status text contains "late cancel", in whatever
    letter case, falls in the no-show bucket and not in the completed one,
    whatever its date is: its entry gains one no-show and no completed
    session. *)
Theorem late_cancel_is_noshow (session : Session.t) (text : string) :
  Session.status session = Val text ->
  contains_ci text "late cancel" ->
  session_bucket Date_parse now session = NoShow
  /\ session_bucket Date_parse now session <> Completed
  /\ forall entry,
       Stat.noshow (update_entry Date_parse now session entry) = Stat.noshow entry + 1
       /\ Stat.completed (update_entry Date_parse now session entry) = Stat.completed entry.
Proof.
  intros Hst Hci.
  assert (Hb : session_bucket Date_parse now session = NoShow).
  { unfold session_bucket, classify, status_text. rewrite Hst.
    assert (Htext : or_lit (Val text) "" = text) by (destruct text; reflexivity).
    rewrite Htext.
    apply contains_ci_includes in Hci. change (toLowerCase "late cancel")
      with "late cancel" in Hci.
    rewrite Hci, !orb_true_r. reflexivity. }
  split; [exact Hb |]. split; [rewrite Hb; discriminate |].
  intros entry. pose proof (update_entry_counters session entry) as [_ H].
  rewrite Hb in H. tauto.
Qed.


End ClassificationFacts.

(** ** The aggregation step *)

Lemma totalSessions_shift (l : list Stat.t) (a : Z) :
  fold_left (fun acc curr => acc + Stat.total curr) l a
  = a + totalSessions l.
Proof.
  unfold totalSessions. revert a.
  induction l as [| e l IH]; intros a; simpl; [lia |].
  rewrite IH, (IH (Stat.total e)). lia.
Qed.

Lemma totalSessions_cons (e : Stat.t) (l : list Stat.t) :
  totalSessions (e :: l) = Stat.total e + totalSessions l.
Proof.
  unfold totalSessions at 1. simpl. apply totalSessions_shift.
Qed.

Lemma totalSessions_set (k : string) (v : Stat.t) (m : JsMap.t) :
  totalSessions (JsMap.values (JsMap.set String.eqb k v m))
  = totalSessions (JsMap.values m) + Stat.total v
    - match JsMap.get String.eqb k m with
      | Some old => Stat.total old
      | None => 0
      end.
Proof.
  induction m as [| [k0 v0] m IH]; simpl.
  - rewrite totalSessions_cons. unfold totalSessions; simpl. lia.
  - destruct (String.eqb k k0); simpl; rewrite !totalSessions_cons; [lia |].
    fold (JsMap.values (JsMap.set String.eqb k v m)).
    fold (JsMap.values m). rewrite IH. lia.
Qed.


Lemma seed_invariant (P : Stat.t -> Prop) (employees : list Employee.t)
    (m : JsMap.t) :
  (forall emp, P (roster_stat emp)) ->
  NoDup (JsMap.keys m) /\ Forall keyed m /\ Forall P (JsMap.values m) ->
  let m' := fold_left seed_employee employees m in
  NoDup (JsMap.keys m') /\ Forall keyed m' /\ Forall P (JsMap.values m').
Proof.
  intros HP. revert m. induction employees as [| a l IH]; intros m H; simpl.
  - exact H.
  - apply IH. destruct H as (Hnd & Hk & Hp). unfold seed_employee.
    split; [| split].
    + apply (NoDup_keys_set _ string_eqb_eq); exact Hnd.
    + apply (Forall_set _ string_eqb_eq); [reflexivity | exact Hk].
    + apply Forall_values_set; [apply HP | exact Hp].
Qed.

Section AggregationFacts.

Variable Date_parse : string -> option Z.
Variable now : Z.

Lemma process_session_eq (statsMap : JsMap.t) (session : Session.t) :
  process_session Date_parse now statsMap session
  = JsMap.set String.eqb (session_key session)
      (update_entry Date_parse now session (entry_before statsMap session))
      (match JsMap.get String.eqb (session_key session) statsMap with
       | Some _ => statsMap
       | None => JsMap.set String.eqb (session_key session)
                   (fresh_stat session) statsMap
       end).
Proof.
  unfold process_session, entry_before, JsMap.has.
  destruct (JsMap.get String.eqb (session_key session) statsMap) as [e |] eqn:G;
    cbn [negb].
  - rewrite G. reflexivity.
  - rewrite (get_set_same _ string_eqb_eq). reflexivity.
Qed.

Lemma process_session_same (statsMap : JsMap.t) (session : Session.t) :
  JsMap.get String.eqb (session_key session)
    (process_session Date_parse now statsMap session)
  = Some (update_entry Date_parse now session (entry_before statsMap session)).
Proof.
  rewrite process_session_eq. apply (get_set_same _ string_eqb_eq).
Qed.

Lemma process_session_other (statsMap : JsMap.t) (session : Session.t)
    (k : string) :
  k <> session_key session ->
  JsMap.get String.eqb k (process_session Date_parse now statsMap session)
  = JsMap.get String.eqb k statsMap.
Proof.
  intros Hne. rewrite process_session_eq.
  rewrite (get_set_other _ string_eqb_eq) by assumption.
  destruct (JsMap.get String.eqb (session_key session) statsMap);
    [reflexivity |].
  apply (get_set_other _ string_eqb_eq); assumption.
Qed.

Lemma process_session_total (statsMap : JsMap.t) (session : Session.t) :
  totalSessions (JsMap.values (process_session Date_parse now statsMap session))
  = totalSessions (JsMap.values statsMap) + 1.
Proof.
  rewrite process_session_eq, totalSessions_set.
  pose proof (update_entry_counters Date_parse now session
                (entry_before statsMap session)) as [Ht _].
  cbv zeta in Ht. rewrite Ht. unfold entry_before.
  destruct (JsMap.get String.eqb (session_key session) statsMap) as [e |] eqn:G.
  - rewrite G. lia.
  - rewrite (get_set_same _ string_eqb_eq), totalSessions_set, G.
    cbn [fresh_stat Stat.total]. lia.
Qed.

Lemma update_entry_balanced (session : Session.t) (entry : Stat.t) :
  balanced entry -> balanced (update_entry Date_parse now session entry).
Proof.
  unfold balanced. intros H.
  pose proof (update_entry_counters Date_parse now session entry) as [Ht Hb].
  cbv zeta in Ht, Hb.
  destruct (session_bucket Date_parse now session); lia.
Qed.

Lemma process_session_invariant (statsMap : JsMap.t) (session : Session.t) :
  NoDup (JsMap.keys statsMap) /\ Forall keyed statsMap
  /\ Forall balanced (JsMap.values statsMap) ->
  let m' := process_session Date_parse now statsMap session in
  NoDup (JsMap.keys m') /\ Forall keyed m' /\ Forall balanced (JsMap.values m').
Proof.
  intros (Hnd & Hk & Hb). cbv zeta. rewrite process_session_eq.
  assert (Hfresh : balanced (fresh_stat session)) by reflexivity.
  assert (Hkf : keyed (session_key session, fresh_stat session))
    by reflexivity.
  assert (Hbefore : balanced (entry_before statsMap session)
                    /\ keyed (session_key session, entry_before statsMap session)).
  { unfold entry_before.
    destruct (JsMap.get String.eqb (session_key session) statsMap) as [e |] eqn:G;
      [| split; assumption].
    split.
    - rewrite Forall_forall in Hb. apply Hb.
      apply (get_In_values _ _ _ G).
    - destruct (get_split _ string_eqb_eq _ _ Hnd G) as (m1 & m2 & Hm & _).
      rewrite Hm in Hk. apply Forall_app in Hk as [_ Hk].
      inversion Hk; assumption. }
  destruct Hbefore as [Hbb Hkb].
  assert (Hmid :
    let m1 := match JsMap.get String.eqb (session_key session) statsMap with
              | Some _ => statsMap
              | None => JsMap.set String.eqb (session_key session)
                          (fresh_stat session) statsMap
              end in
    NoDup (JsMap.keys m1) /\ Forall keyed m1 /\ Forall balanced (JsMap.values m1)).
  { destruct (JsMap.get String.eqb (session_key session) statsMap);
      cbv zeta; [auto |].
    split; [| split].
    - apply (NoDup_keys_set _ string_eqb_eq); exact Hnd.
    - apply (Forall_set _ string_eqb_eq); assumption.
    - apply Forall_values_set; assumption. }
  cbv zeta in Hmid. destruct Hmid as (Hnd1 & Hk1 & Hb1).
  split; [| split].
  - apply (NoDup_keys_set _ string_eqb_eq); exact Hnd1.
  - apply (Forall_set _ string_eqb_eq); [| exact Hk1].
    unfold keyed in *. cbn [fst snd] in *.
    destruct (update_entry_identity Date_parse now session
                (entry_before statsMap session)) as (_ & -> & _).
    exact Hkb.
  - apply Forall_values_set; [| exact Hb1].
    apply update_entry_balanced; exact Hbb.
Qed.

End AggregationFacts.

Section AggregationRunFacts.

Variable Date_parse : string -> option Z.
Variable clock : nat -> Z.

Lemma sessions_invariant (sessions : list Session.t) (i : nat) (m : JsMap.t) :
  NoDup (JsMap.keys m) /\ Forall keyed m /\ Forall balanced (JsMap.values m) ->
  let m' := process_sessions Date_parse clock i sessions m in
  NoDup (JsMap.keys m') /\ Forall keyed m' /\ Forall balanced (JsMap.values m').
Proof.
  revert i m. induction sessions as [| s l IH]; intros i m H; simpl;
    [exact H |].
  apply IH. apply process_session_invariant. exact H.
Qed.

Lemma sessions_total (sessions : list Session.t) (i : nat) (m : JsMap.t) :
  totalSessions (JsMap.values (process_sessions Date_parse clock i sessions m))
  = totalSessions (JsMap.values m) + len sessions.
Proof.
  revert i m. induction sessions as [| s l IH]; intros i m; simpl.
  - unfold len; simpl. lia.
  - rewrite IH, process_session_total. unfold len. simpl List.length. lia.
Qed.

Lemma sessions_other (sessions : list Session.t) (i : nat) (m : JsMap.t)
    (k : string) :
  (forall s, In s sessions -> session_key s <> k) ->
  JsMap.get String.eqb k (process_sessions Date_parse clock i sessions m)
  = JsMap.get String.eqb k m.
Proof.
  revert i m. induction sessions as [| s l IH]; intros i m H; simpl;
    [reflexivity |].
  rewrite IH by (intros s' Hs'; apply H; right; exact Hs').
  apply process_session_other. intros ->. apply (H s); [left |]; reflexivity.
Qed.

Lemma aggregate_invariant (sessions : list Session.t)
    (employees : list Employee.t) :
  let m := aggregate_map Date_parse clock sessions employees in
  NoDup (JsMap.keys m) /\ Forall keyed m /\ Forall balanced (JsMap.values m).
Proof.
  unfold aggregate_map. apply sessions_invariant.
  apply (seed_invariant (P:=balanced)); [reflexivity |].
  split; [constructor | split; constructor].
Qed.

End AggregationRunFacts.

(** The record that the seeding leaves under a key is that of the last
    roster employee of the key. *)
Lemma seed_last (employees : list Employee.t) (m : JsMap.t) (k : string) :
  JsMap.get String.eqb k (fold_left seed_employee employees m)
  = match last_with_key k employees with
    | Some emp => Some (roster_stat emp)
    | None => JsMap.get String.eqb k m
    end.
Proof.
  unfold last_with_key.
  induction employees as [| a l IH] using rev_ind; [reflexivity |].
  rewrite !fold_left_app. cbn [fold_left]. unfold seed_employee at 1.
  destruct (String.eqb (employee_key a) k) eqn:Ek.
  - apply String.eqb_eq in Ek. subst k.
    apply (get_set_same _ string_eqb_eq).
  - rewrite (get_set_other _ string_eqb_eq); [exact IH |].
    intros ->. rewrite String.eqb_refl in Ek. discriminate.
Qed.

Lemma last_with_key_spec (k : string) (employees : list Employee.t)
    (emp : Employee.t) :
  last_with_key k employees = Some emp ->
  In emp employees /\ employee_key emp = k.
Proof.
  unfold last_with_key.
  induction employees as [| a l IH] using rev_ind; [discriminate |].
  rewrite fold_left_app. cbn [fold_left].
  destruct (String.eqb (employee_key a) k) eqn:Ek.
  - intros H; injection H as <-. apply String.eqb_eq in Ek.
    split; [apply in_or_app; right; left; reflexivity | exact Ek].
  - intros H. destruct (IH H) as [Hin Hk].
    split; [apply in_or_app; left; exact Hin | exact Hk].
Qed.

Lemma last_with_key_here (before after : list Employee.t)
    (emp : Employee.t) :
  (forall e, In e after -> employee_key e <> employee_key emp) ->
  last_with_key (employee_key emp) (before ++ emp :: after) = Some emp.
Proof.
  intros Hafter. unfold last_with_key. rewrite fold_left_app.
  cbn [fold_left]. rewrite String.eqb_refl.
  induction after as [| a l IH] using rev_ind; [reflexivity |].
  rewrite fold_left_app. cbn [fold_left].
  destruct (String.eqb (employee_key a) (employee_key emp)) eqn:Ek.
  - apply String.eqb_eq in Ek. exfalso.
    apply (Hafter a); [apply in_or_app; right; left; reflexivity | exact Ek].
  - apply IH. intros e He. apply Hafter. apply in_or_app. left. exact He.
Qed.

Section AggregationClaims.

Variable Date_parse : string -> option Z.
Variable clock : nat -> Z.

(** C1. Each session adds one to the total and to exactly one of the three
    counters of the single record filed under its key, and leaves every
    other record alone; every record of the output has
    completed + noshow + scheduled = total; and the totals of the output
    add up to the number of sessions. *)
Theorem status_partition :
  (forall (now : Z) (statsMap : JsMap.t) (session : Session.t),
      let before := entry_before statsMap session in
      exists after,
        JsMap.get String.eqb (session_key session)
          (process_session Date_parse now statsMap session) = Some after
        /\ Stat.total after = Stat.total before + 1
        /\ ((Stat.completed after = Stat.completed before + 1
             /\ Stat.noshow after = Stat.noshow before
             /\ Stat.scheduled after = Stat.scheduled before)
            \/ (Stat.completed after = Stat.completed before
                /\ Stat.noshow after = Stat.noshow before + 1
                /\ Stat.scheduled after = Stat.scheduled before)
            \/ (Stat.completed after = Stat.completed before
                /\ Stat.noshow after = Stat.noshow before
                /\ Stat.scheduled after = Stat.scheduled before + 1))
        /\ forall k, k <> session_key session ->
             JsMap.get String.eqb k
               (process_session Date_parse now statsMap session)
             = JsMap.get String.eqb k statsMap)
  /\ (forall sessions employees r,
        In r (aggregatedStats Date_parse clock sessions employees) ->
        Stat.completed r + Stat.noshow r + Stat.scheduled r = Stat.total r)
  /\ (forall sessions employees,
        totalSessions (aggregatedStats Date_parse clock sessions employees)
        = len sessions).
Proof.
  split; [| split].
  - intros now statsMap session before.
    exists (update_entry Date_parse now session before).
    split; [apply process_session_same |].
    pose proof (update_entry_counters Date_parse now session before)
      as [Ht Hb].
    cbv zeta in Ht, Hb. split; [exact Ht |]. split.
    + destruct (session_bucket Date_parse now session); tauto.
    + intros k Hk. apply process_session_other; exact Hk.
  - intros sessions employees r Hin.
    destruct (aggregate_invariant Date_parse clock sessions employees)
      as (_ & _ & Hb).
    rewrite Forall_forall in Hb. apply Hb. exact Hin.
  - intros sessions employees. unfold aggregatedStats, aggregate_map.
    rewrite sessions_total.
    assert (H0 : totalSessions
                   (JsMap.values (fold_left seed_employee employees JsMap.empty))
                 = 0).
    { destruct (seed_invariant (P := fun e => Stat.total e = 0) employees
                  (m := JsMap.empty)) as (_ & _ & Hz).
      - reflexivity.
      - split; [constructor | split; constructor].
      - induction Hz as [| e l He _ IH]; [reflexivity |].
        rewrite totalSessions_cons, He, IH. reflexivity. }
    rewrite H0. lia.
Qed.

(** The record of a roster employee without sessions, as the code has it,
    for names within ASCII. A roster employee whose key no session resolves
    to has exactly one record under that key in the output, with all four
    counts at zero and no latest session. The record carries the id, name,
    program and avatar of the last roster employee of the key: the
    employee's own when no later roster employee has the same lower-cased
    name. *)
Theorem roster_employee_without_sessions
    (sessions : list Session.t) (before after : list Employee.t)
    (emp : Employee.t) :
  forallb ascii_employee (before ++ emp :: after) = true ->
  forallb ascii_session sessions = true ->
  (forall s, In s sessions -> session_key s <> employee_key emp) ->
  exists l1 r l2 emp',
    aggregatedStats Date_parse clock sessions (before ++ emp :: after)
    = (l1 ++ r :: l2)%list
    /\ (forall r', In r' (l1 ++ l2)%list ->
                   toLowerCase (Stat.name r') <> employee_key emp)
    /\ toLowerCase (Stat.name r) = employee_key emp
    /\ Stat.completed r = 0 /\ Stat.noshow r = 0
    /\ Stat.scheduled r = 0 /\ Stat.total r = 0
    /\ Stat.latestSession r = None
    /\ last_with_key (employee_key emp) (before ++ emp :: after) = Some emp'
    /\ Stat.id r = Employee.id emp'
    /\ Stat.name r = employee_display_name emp'
    /\ Stat.program r
       = or_lit (or_field (Employee.program emp') (Employee.program_name emp'))
           "Unassigned"
    /\ Stat.avatar_url r = Employee.avatar_url emp'
    /\ ((forall e, In e after -> employee_key e <> employee_key emp) ->
        emp' = emp).
Proof.
  intros _ _ Hno.
  destruct (aggregate_invariant Date_parse clock sessions
              (before ++ emp :: after)) as (Hnd & Hk & _).
  assert (Hlast : exists emp',
             last_with_key (employee_key emp) (before ++ emp :: after)
             = Some emp').
  { destruct (last_with_key (employee_key emp) (before ++ emp :: after))
      as [emp' |] eqn:Hl; [eauto |].
    exfalso. unfold last_with_key in Hl. rewrite fold_left_app in Hl.
    cbn [fold_left] in Hl. rewrite String.eqb_refl in Hl.
    clear - Hl. induction after as [| a l IH] using rev_ind;
      [discriminate |].
    rewrite fold_left_app in Hl. cbn [fold_left] in Hl.
    destruct (String.eqb (employee_key a) (employee_key emp));
      [discriminate | auto]. }
  destruct Hlast as [emp' Hlast].
  assert (Hg : JsMap.get String.eqb (employee_key emp)
                 (aggregate_map Date_parse clock sessions
                    (before ++ emp :: after))
               = Some (roster_stat emp')).
  { unfold aggregate_map. rewrite sessions_other by exact Hno.
    rewrite seed_last, Hlast. reflexivity. }
  destruct (last_with_key_spec _ _ Hlast) as [_ Hkey].
  destruct (get_split _ string_eqb_eq _ _ Hnd Hg) as (m1 & m2 & Hm & H1 & H2).
  exists (JsMap.values m1), (roster_stat emp'), (JsMap.values m2), emp'.
  split.
  { unfold aggregatedStats. rewrite Hm. unfold JsMap.values.
    rewrite map_app. reflexivity. }
  split.
  { intros r' Hr'. rewrite Hm in Hk.
    apply Forall_app in Hk as [Hk1 Hk2].
    inversion Hk2 as [| ? ? _ Hk2']; subst.
    rewrite Forall_forall in Hk1, Hk2'.
    apply in_app_or in Hr' as [Hr' | Hr']; unfold JsMap.values in Hr';
      apply in_map_iff in Hr' as ([k v] & <- & Hkv); cbn [snd].
    - rewrite <- (Hk1 _ Hkv). cbn [fst]. intros ->. apply H1.
      unfold JsMap.keys. apply in_map_iff. exists (employee_key emp, v). auto.
    - rewrite <- (Hk2' _ Hkv). cbn [fst]. intros ->. apply H2.
      unfold JsMap.keys. apply in_map_iff. exists (employee_key emp, v). auto. }
  split; [cbn [roster_stat Stat.name]; exact Hkey |].
  do 5 (split; [reflexivity |]).
  split; [exact Hlast |].
  do 4 (split; [reflexivity |]).
  intros Hafter. rewrite (@last_with_key_here before after emp Hafter) in Hlast.
  congruence.
Qed.

End AggregationClaims.

(** *** The classification and aggregation claims on the sample data *)

Lemma late_cancel_is_noshow_witness :
  session_bucket sample_parse sample_now late_cancel_session = NoShow
  /\ session_bucket sample_parse sample_now late_cancel_session <> Completed
  /\ forall entry,
       Stat.noshow (update_entry sample_parse sample_now late_cancel_session
                      entry) = Stat.noshow entry + 1
       /\ Stat.completed (update_entry sample_parse sample_now
                            late_cancel_session entry) = Stat.completed entry.
Proof.
  apply (late_cancel_is_noshow sample_parse sample_now late_cancel_session
           (text := "Client LATE Cancel (24h)") eq_refl).
  exists "Client ", "LATE Cancel", " (24h)". split; reflexivity.
Defined.


Example aggregatedStats_sample :
  map (fun r => (Stat.name r, Stat.completed r, Stat.noshow r,
                 Stat.scheduled r, Stat.total r))
      (aggregatedStats sample_parse sample_clock sample_sessions sample_roster)
  = [("Alice Johnson", 1, 1, 1, 3); ("Bob Smith", 0, 0, 0, 0);
     ("Carol Diaz", 1, 0, 0, 1)].
Proof. vm_compute. reflexivity. Qed.

(** The end-to-end scenario of the specification. *)
Example aggregatedStats_alice :
  aggregatedStats sample_parse sample_clock
    [sample_session 21 "2023-10-25" (Val "Completed") (Val "Alice Johnson")
       None]
    [Employee.mk (IdNum 1) Undefined Undefined Undefined (Val "Alice Johnson")
       Undefined (Val "Eng") Undefined Undefined Undefined Undefined
       Undefined Undefined Undefined Undefined]
  = [Stat.mk (IdNum 1) "Alice Johnson" "Eng" Undefined 1 0 0 1
       (Some (Some 1698192000000))].
Proof. vm_compute. reflexivity. Qed.

Lemma status_partition_witness :
  totalSessions
    (aggregatedStats sample_parse sample_clock sample_sessions sample_roster)
  = 4.
Proof.
  exact (proj2 (proj2 (status_partition sample_parse sample_clock))
           sample_sessions sample_roster).
Defined.

Lemma roster_employee_without_sessions_witness :
  exists l1 r l2 emp',
    aggregatedStats sample_parse sample_clock sample_sessions
      ([sample_employee 1 "Alice Johnson"] ++ sample_employee 2 "Bob Smith"
       :: [])
    = (l1 ++ r :: l2)%list
    /\ (forall r', In r' (l1 ++ l2)%list ->
                   toLowerCase (Stat.name r') <> "bob smith")
    /\ toLowerCase (Stat.name r) = "bob smith"
    /\ Stat.completed r = 0 /\ Stat.noshow r = 0
    /\ Stat.scheduled r = 0 /\ Stat.total r = 0
    /\ Stat.latestSession r = None
    /\ last_with_key "bob smith"
         ([sample_employee 1 "Alice Johnson"] ++ sample_employee 2 "Bob Smith"
          :: []) = Some emp'
    /\ Stat.id r = Employee.id emp'
    /\ Stat.name r = employee_display_name emp'
    /\ Stat.program r
       = or_lit (or_field (Employee.program emp') (Employee.program_name emp'))
           "Unassigned"
    /\ Stat.avatar_url r = Employee.avatar_url emp'
    /\ ((forall e, In e [] -> employee_key e <> "bob smith") ->
        emp' = sample_employee 2 "Bob Smith").
Proof.
  apply (roster_employee_without_sessions sample_parse sample_clock
           sample_sessions [sample_employee 1 "Alice Johnson"] []
           (sample_employee 2 "Bob Smith")).
  - reflexivity.
  - reflexivity.
  - intros s Hs. simpl in Hs.
    destruct Hs as [<- | [<- | [<- | [<- | []]]]]; vm_compute; discriminate.
Defined.

(** C4. The roster is seeded under the lower-cased name read from the
    [full_name], [employee_name] and [name] columns, "Unknown" without
    them, and a later employee of a key replaces the earlier one. So the
    roster employees of one key share one record, that of the last of
    them, and the others have no record: three employees named by their
    [first_name] and [last_name] columns only, without sessions, give the
    one record "Unknown" of the third; two employees whose names differ by
    their letter case only give the one record of the second. *)
Theorem roster_employees_of_one_key_share_a_record :
  map (fun r => (Stat.id r, Stat.name r, Stat.program r, Stat.total r))
    (aggregatedStats sample_parse sample_clock [] mock_roster)
  = [(IdNum 3, "Unknown", "Marketing", 0)]
  /\ (forall emp r,
        In emp [mock_employee 1 "Alice" "Johnson" "Engineering";
                mock_employee 2 "Bob" "Smith" "Design"] ->
        In r (aggregatedStats sample_parse sample_clock [] mock_roster) ->
        Stat.id r <> Employee.id emp)
  /\ map (fun r => (Stat.id r, Stat.name r, Stat.program r, Stat.total r))
       (aggregatedStats sample_parse sample_clock [] [john_lower; john_upper])
     = [(IdNum 2, "JOHN SMITH", "Eng", 0)]
  /\ (forall r,
        In r (aggregatedStats sample_parse sample_clock []
                [john_lower; john_upper]) ->
        Stat.id r <> Employee.id john_lower
        /\ Stat.name r <> employee_display_name john_lower).
Proof.
  split; [vm_compute; reflexivity |].
  split.
  { intros emp r Hemp Hr. vm_compute in Hr. destruct Hr as [<- | []].
    destruct Hemp as [<- | [<- | []]]; vm_compute; discriminate. }
  split; [vm_compute; reflexivity |].
  intros r Hr. vm_compute in Hr. destruct Hr as [<- | []].
  split; vm_compute; discriminate.
Qed.

(** *** The display name of a session's employee *)

Lemma truthy_or_field (a b : field string) :
  truthy (or_field a b) = (truthy a || truthy b)%bool.
Proof.
  unfold or_field, or_with. fold (truthy a).
  destruct (truthy a) eqn:Ha; [exact Ha | reflexivity].
Qed.

Lemma session_display_name_first (session : Session.t) (m : Manager.t) :
  Session.employee_manager session = Some m ->
  truthy (Manager.first_name m) = true ->
  session_display_name session
  = trim (template (Manager.first_name m) ++ " "
          ++ or_lit (Manager.last_name m) "").
Proof.
  intros Hm Hf. unfold session_display_name.
  rewrite truthy_or_field, Hm. cbn [opt_chain].
  rewrite Hf, orb_true_r. reflexivity.
Qed.

Lemma session_display_name_flat (session : Session.t) :
  (forall m, Session.employee_manager session = Some m ->
             truthy (Manager.full_name m) = false
             /\ truthy (Manager.first_name m) = false) ->
  session_display_name session
  = or_lit (Session.employee_name session) "Unknown Employee".
Proof.
  intros H. unfold session_display_name. rewrite truthy_or_field.
  destruct (Session.employee_manager session) as [m |]; [| reflexivity].
  destruct (H m eq_refl) as [Hfull Hfirst]. cbn [opt_chain].
  rewrite Hfull, Hfirst. reflexivity.
Qed.

(** When the nested reference has a full name the composed form is used
    all the same, whatever [first_name] holds. *)
Lemma session_display_name_full (session : Session.t) (m : Manager.t) :
  Session.employee_manager session = Some m ->
  truthy (Manager.full_name m) = true ->
  session_display_name session
  = trim (template (Manager.first_name m) ++ " "
          ++ or_lit (Manager.last_name m) "").
Proof.
  intros Hm Hf. unfold session_display_name.
  rewrite truthy_or_field, Hm. cbn [opt_chain].
  rewrite Hf. reflexivity.
Qed.

(** C3. A session whose nested reference carries only a full name is not
    named by that full name: the template is filled from the missing first
    name, and the session is filed under "undefined". *)
Theorem full_name_only_reference :
  session_display_name full_name_only_session = "undefined"
  /\ session_display_name full_name_only_session <> "Alice Johnson"
  /\ map Stat.name
       (aggregatedStats sample_parse sample_clock [full_name_only_session]
          [sample_employee 1 "Alice Johnson"])
     = ["Alice Johnson"; "undefined"].
Proof.
  split; [reflexivity |]. split; [discriminate |]. vm_compute. reflexivity.
Qed.

(** ** The paginated fetch *)

Section FetchFacts.

Context {Src T E : Type}.
Variable run_query : Src -> Request.t -> Response T E * Src.
Variable tableName selectQuery : string.
Variable filters : Filter.
Variable orderBy : option string.

Local Abbreviation iter :=
  (iteration run_query tableName selectQuery filters orderBy).
Local Abbreviation loop :=
  (fetch_loop run_query tableName selectQuery filters orderBy).
Local Abbreviation request :=
  (page_request tableName selectQuery filters orderBy).

Lemma fetch_loop_body (st : Loop.t Src T) :
  loop st = match iter st with
            | Done r => r
            | Continue st' => loop st'
            end.
Proof.
  rewrite fetch_loop_equation_1.
  generalize (inspect (iter st)). intros [s Hs].
  transitivity (match s with
                | Done r => r
                | Continue st' => loop st'
                end); [| rewrite Hs; reflexivity].
  destruct s; reflexivity.
Qed.

(** Induction along the loop: a property that holds of a state whenever it
    holds of the state the body continues with holds of every state. *)
Lemma loop_induction (P : Loop.t Src T -> Prop) :
  (forall st, (forall st', iter st = Continue st' -> P st') -> P st) ->
  forall st, P st.
Proof.
  intros Hstep st.
  remember (Z.to_nat (51 - Loop.page st)) as n eqn:Hn.
  revert st Hn. induction n as [n IH] using lt_wf_ind. intros st Hn.
  apply Hstep. intros st' Hc.
  apply (IH (Z.to_nat (51 - Loop.page st'))); [| reflexivity].
  subst n. apply (iteration_continue _ _ _ _ _ _ Hc).
Qed.

(** What a pass that ends the loop returns, and what a pass that goes on
    hands over. *)
Lemma iteration_done (st : Loop.t Src T) (r : Run.t Src (list T) E) :
  iter st = Done r ->
  Run.requests r = (Loop.reqs st ++ [request (Loop.page st)])%list
  /\ Run.store r = snd (run_query (Loop.src st) (request (Loop.page st)))
  /\ match fst (run_query (Loop.src st) (request (Loop.page st))) with
     | Failure e => Run.outcome r = Thrown e
     | Data _ => exists rows, Run.outcome r = Returned rows
     end.
Proof.
  unfold iteration.
  destruct (run_query (Loop.src st) (request (Loop.page st))) as [resp src'].
  destruct resp as [e | data]; cbn [fst snd].
  - intros H; injection H as <-. auto.
  - destruct (match data with
              | Some d =>
                  if 0 <? len d
                  then ((Loop.allData st ++ d)%list, negb (len d <? pageSize))
                  else (Loop.allData st, false)
              | None => (Loop.allData st, false)
              end) as [allData' hasMore].
    destruct (50 <? Loop.page st + 1); [| destruct hasMore];
      try discriminate; intros H; injection H as <-; cbn; eauto.
Qed.

Lemma iteration_next (st st' : Loop.t Src T) :
  iter st = Continue st' ->
  Loop.page st' = Loop.page st + 1
  /\ Loop.page st' <= 50
  /\ Loop.reqs st' = (Loop.reqs st ++ [request (Loop.page st)])%list
  /\ exists d,
       run_query (Loop.src st) (request (Loop.page st))
       = (Data (Some d), Loop.src st')
       /\ pageSize <= len d
       /\ Loop.allData st' = (Loop.allData st ++ d)%list.
Proof.
  unfold iteration.
  destruct (run_query (Loop.src st) (request (Loop.page st))) as [resp src'].
  destruct resp as [e | data]; [discriminate |].
  destruct (50 <? Loop.page st + 1) eqn:Hcap.
  - destruct (match data with
              | Some d =>
                  if 0 <? len d
                  then ((Loop.allData st ++ d)%list, negb (len d <? pageSize))
                  else (Loop.allData st, false)
              | None => (Loop.allData st, false)
              end); discriminate.
  - apply Z.ltb_ge in Hcap.
    destruct data as [d |]; [| discriminate].
    destruct (0 <? len d); [| discriminate].
    destruct (len d <? pageSize) eqn:Hfull; [discriminate |].
    apply Z.ltb_ge in Hfull. cbn [negb].
    intros H; injection H as <-. cbn. repeat split; try lia.
    exists d. auto.
Qed.

Lemma reaches_fetch_loop (st st' : Loop.t Src T) :
  reaches iter st st' -> loop st = loop st'.
Proof.
  induction 1 as [| st st' st'' Hc _ IH]; [reflexivity |].
  rewrite fetch_loop_body, Hc. exact IH.
Qed.

(** The loop never issues more than 51 requests: the cap test
    [page > 50] comes after the increment, so it first holds when the 51st
    page has been fetched. *)
Lemma fetch_loop_requests (st : Loop.t Src T) :
  len (Loop.reqs st) = Loop.page st -> Loop.page st <= 50 ->
  len (Run.requests (loop st)) <= 51.
Proof.
  revert st. apply (loop_induction
    (fun st => len (Loop.reqs st) = Loop.page st -> Loop.page st <= 50 ->
               len (Run.requests (loop st)) <= 51)).
  intros st IH Hlen Hle. rewrite fetch_loop_body.
  destruct (iter st) as [r | st'] eqn:Hi.
  - apply iteration_done in Hi as [-> _].
    unfold len in *. rewrite length_app. simpl List.length. lia.
  - pose proof (iteration_next _ Hi) as (Hp & Hcap & Hr & _).
    apply (IH st' eq_refl); [| exact Hcap].
    rewrite Hr, Hp. unfold len in *. rewrite length_app. simpl List.length.
    lia.
Qed.

Lemma fetchAllPages_requests (silent : bool) (src : Src) :
  len (Run.requests
         (fetchAllPages run_query tableName selectQuery filters orderBy
            silent src)) <= 51.
Proof. unfold fetchAllPages. apply fetch_loop_requests; cbn; lia. Qed.

End FetchFacts.

(** C2. Against a store whose pages are all full, the loop stops only after
    its 51st request and returns 51,000 rows: one page more than the cap of
    50 pages. *)
Theorem full_store_51_requests :
  let r := fetchAllPages full_store "session_tracking" "*" NoFilter
             (Some "created_at") false 0%nat in
  len (Run.requests r) = 51
  /\ Run.store r = 51%nat
  /\ (exists rows, Run.outcome r = Returned rows /\ len rows = 51000)
  /\ ~ len (Run.requests r) <= 50.
Proof.
  intros r.
  assert (Hreq : len (Run.requests r) = 51) by (vm_compute; reflexivity).
  assert (Hrows : match Run.outcome r with
                  | Returned rows => len rows
                  | Thrown _ => -1
                  end = 51000) by (vm_compute; reflexivity).
  split; [exact Hreq |]. split; [vm_compute; reflexivity |]. split.
  - destruct (Run.outcome r) as [rows | e]; [| discriminate].
    exists rows. split; [reflexivity | exact Hrows].
  - rewrite Hreq. lia.
Qed.

Section FetchClaims.

Context {Src T E : Type}.
Variable run_query : Src -> Request.t -> Response T E * Src.
Variable tableName selectQuery : string.
Variable filters : Filter.
Variable orderBy : option string.

(** C6. When the store answers the first three page requests with 1000,
    1000 and 400 rows, the fetch issues exactly these three requests, for
    the ranges 0-999, 1000-1999 and 2000-2999, and returns the 2400 rows in
    the order of arrival, whatever the table, selection, filter and order
    are. *)
Theorem three_pages (silent : bool) (src0 src1 src2 src3 : Src)
    (p1 p2 p3 : list T) :
  run_query src0 (page_request tableName selectQuery filters orderBy 0)
  = (Data (Some p1), src1) ->
  len p1 = 1000 ->
  run_query src1 (page_request tableName selectQuery filters orderBy 1)
  = (Data (Some p2), src2) ->
  len p2 = 1000 ->
  run_query src2 (page_request tableName selectQuery filters orderBy 2)
  = (Data (Some p3), src3) ->
  len p3 = 400 ->
  let r := fetchAllPages run_query tableName selectQuery filters orderBy
             silent src0 in
  Run.outcome r = Returned (p1 ++ p2 ++ p3)%list
  /\ len (p1 ++ p2 ++ p3)%list = 2400
  /\ Run.requests r
     = [page_request tableName selectQuery filters orderBy 0;
        page_request tableName selectQuery filters orderBy 1;
        page_request tableName selectQuery filters orderBy 2]
  /\ map (fun rq => (Request.from rq, Request.to rq)) (Run.requests r)
     = [(0, 999); (1000, 1999); (2000, 2999)]
  /\ Run.store r = src3.
Proof.
  intros H1 L1 H2 L2 H3 L3.
  assert (Hrun :
    fetchAllPages run_query tableName selectQuery filters orderBy silent src0
    = Run.mk (Returned ((([] ++ p1) ++ p2) ++ p3)%list)
        [page_request tableName selectQuery filters orderBy 0;
         page_request tableName selectQuery filters orderBy 1;
         page_request tableName selectQuery filters orderBy 2] src3).
  { unfold fetchAllPages.
    rewrite fetch_loop_body. unfold iteration at 1. cbn [Loop.src Loop.page
      Loop.allData Loop.reqs]. rewrite H1, L1. cbn -[page_request app].
    rewrite fetch_loop_body. unfold iteration at 1. cbn [Loop.src Loop.page
      Loop.allData Loop.reqs]. rewrite H2, L2. cbn -[page_request app].
    rewrite fetch_loop_body. unfold iteration at 1. cbn [Loop.src Loop.page
      Loop.allData Loop.reqs]. rewrite H3, L3. cbn -[page_request app].
    reflexivity. }
  cbv zeta. rewrite Hrun. cbn [Run.outcome Run.requests Run.store].
  repeat split.
  - cbn [app]. rewrite app_assoc. reflexivity.
  - unfold len in *. rewrite !length_app. lia.
Qed.

(** C7. When the query of any page that a run comes to fails, the fetch
    throws, and what it throws is the error of that response; it returns no
    rows, whatever it had accumulated. Conversely, whatever the fetch
    throws is the error of the response to one of its page requests. *)
Theorem failure_aborts_fetch (silent : bool) (src0 : Src) :
  (forall (st : Loop.t Src T) (e : E) (src' : Src),
      reaches (iteration run_query tableName selectQuery filters orderBy)
        (Loop.mk src0 0 [] []) st ->
      run_query (Loop.src st)
        (page_request tableName selectQuery filters orderBy (Loop.page st))
      = (Failure e, src') ->
      fetchAllPages run_query tableName selectQuery filters orderBy silent src0
      = Run.mk (Thrown e)
          (Loop.reqs st
           ++ [page_request tableName selectQuery filters orderBy
                 (Loop.page st)])%list
          src')
  /\ (forall e : E,
        Run.outcome (fetchAllPages run_query tableName selectQuery filters
                       orderBy silent src0) = Thrown e ->
        exists (st : Loop.t Src T) (src' : Src),
          reaches (iteration run_query tableName selectQuery filters orderBy)
            (Loop.mk src0 0 [] []) st
          /\ run_query (Loop.src st)
               (page_request tableName selectQuery filters orderBy
                  (Loop.page st))
             = (Failure e, src')).
Proof.
  split.
  - intros st e src' Hreach Hq. unfold fetchAllPages.
    rewrite (reaches_fetch_loop Hreach), fetch_loop_body.
    unfold iteration. rewrite Hq. reflexivity.
  - unfold fetchAllPages. generalize (Loop.mk src0 0 (@nil T) []).
    apply (loop_induction run_query tableName selectQuery filters orderBy
      (fun st0 => forall e,
         Run.outcome (fetch_loop run_query tableName selectQuery filters
                        orderBy st0) = Thrown e ->
         exists st src',
           reaches (iteration run_query tableName selectQuery filters orderBy)
             st0 st
           /\ run_query (Loop.src st)
                (page_request tableName selectQuery filters orderBy
                   (Loop.page st)) = (Failure e, src'))).
    intros st0 IH e. rewrite fetch_loop_body.
    destruct (iteration run_query tableName selectQuery filters orderBy st0)
      as [r | st'] eqn:Hi.
    + intros Hout. apply iteration_done in Hi as (_ & _ & Hresp).
      destruct (run_query (Loop.src st0)
                  (page_request tableName selectQuery filters orderBy
                     (Loop.page st0))) as [resp src'] eqn:Hq.
      cbn [fst] in Hresp. destruct resp as [e' | data].
      * exists st0, src'. split; [constructor |].
        rewrite Hq. congruence.
      * destruct Hresp as [rows Hrows]. congruence.
    + intros Hout. destruct (IH st' eq_refl e Hout) as (st & src' & Hr & Hq).
      exists st, src'. split; [| exact Hq].
      eapply reaches_next; [exact Hi | exact Hr].
Qed.

End FetchClaims.

(** *** The fetch claims on the sample stores *)

Lemma three_pages_witness :
  let r := fetchAllPages (table_store (E:=unit) (seq 0 2400))
             "session_tracking" "*" (NotNull "employee_name")
             (Some "created_at") false 0%nat in
  Run.outcome r
  = Returned (seq 0 1000 ++ seq 1000 1000 ++ seq 2000 400)%list
  /\ len (seq 0 1000 ++ seq 1000 1000 ++ seq 2000 400)%list = 2400
  /\ Run.requests r
     = [page_request "session_tracking" "*" (NotNull "employee_name")
          (Some "created_at") 0;
        page_request "session_tracking" "*" (NotNull "employee_name")
          (Some "created_at") 1;
        page_request "session_tracking" "*" (NotNull "employee_name")
          (Some "created_at") 2]
  /\ map (fun rq => (Request.from rq, Request.to rq)) (Run.requests r)
     = [(0, 999); (1000, 1999); (2000, 2999)]
  /\ Run.store r = 3%nat.
Proof.
  apply (three_pages (table_store (E:=unit) (seq 0 2400))
           "session_tracking" "*" (NotNull "employee_name")
           (Some "created_at") false 0%nat (src1 := 1%nat) (src2 := 2%nat));
    vm_compute; reflexivity.
Defined.

Lemma failure_aborts_fetch_witness :
  fetchAllPages failing_store "employee_manager" "*" NoFilter None true 0%nat
  = Run.mk (Thrown (PostgrestError.mk "42P01" "relation does not exist"))
      [page_request "employee_manager" "*" NoFilter None 0;
       page_request "employee_manager" "*" NoFilter None 1]
      2%nat.
Proof.
  apply (proj1 (failure_aborts_fetch failing_store "employee_manager" "*"
                  NoFilter None true 0%nat)
           (Loop.mk 1%nat 1 (repeat true 1000)
              [page_request "employee_manager" "*" NoFilter None 0])).
  - eapply reaches_next; [| apply reaches_here]. vm_compute. reflexivity.
  - reflexivity.
Defined.

(** ** The roster *)

Lemma fetch_loop_tables {Src T E : Type}
    (run_query : Src -> Request.t -> Response T E * Src)
    (tableName selectQuery : string) (filters : Filter)
    (orderBy : option string) (st : Loop.t Src T) :
  Forall (fun rq => Request.table rq = tableName) (Loop.reqs st) ->
  Forall (fun rq => Request.table rq = tableName)
    (Run.requests (fetch_loop run_query tableName selectQuery filters
                     orderBy st)).
Proof.
  revert st.
  apply (loop_induction run_query tableName selectQuery filters orderBy
    (fun st =>
       Forall (fun rq => Request.table rq = tableName) (Loop.reqs st) ->
       Forall (fun rq => Request.table rq = tableName)
         (Run.requests (fetch_loop run_query tableName selectQuery filters
                          orderBy st)))).
  intros st IH Hreqs. rewrite fetch_loop_body.
  destruct (iteration run_query tableName selectQuery filters orderBy st)
    as [r | st'] eqn:Hi.
  - apply iteration_done in Hi as [-> _].
    apply Forall_app. split; [exact Hreqs | repeat constructor].
  - apply (IH st' eq_refl).
    apply iteration_next in Hi as (_ & _ & -> & _).
    apply Forall_app. split; [exact Hreqs | repeat constructor].
Qed.

Section RosterClaims.

Variable random_suffix : nat -> string.
Context {Src E : Type}.
Variable query_roster : Src -> Request.t -> Response Employee.t E * Src.
Variable query_sessions : Src -> Request.t -> Response Row.t E * Src.

(** C10. When the fetch of the roster table returns at least one row,
    [getEmployeeRoster] returns that very sequence of rows and queries
    nothing but the roster table. *)
Theorem preferred_roster_unchanged (src : Src) (rows : list Employee.t) :
  Run.outcome (fetchAllPages query_roster "employee_manager" "*" NoFilter
                 None true src) = Returned rows ->
  rows <> [] ->
  let fetched := fetchAllPages query_roster "employee_manager" "*" NoFilter
                   None true src in
  let r := getEmployeeRoster random_suffix query_roster query_sessions src in
  Run.outcome r = Returned rows
  /\ Run.requests r = Run.requests fetched
  /\ Run.store r = Run.store fetched
  /\ Forall (fun rq => Request.table rq = "employee_manager")
       (Run.requests r).
Proof.
  intros Hout Hne. cbv zeta. unfold getEmployeeRoster. rewrite Hout.
  assert (Hlen : (0 <? len rows) = true).
  { apply Z.ltb_lt. unfold len. destruct rows; [contradiction | simpl; lia]. }
  rewrite Hlen. cbn [Run.outcome Run.requests Run.store].
  split; [reflexivity |]. split; [reflexivity |]. split; [reflexivity |].
  unfold fetchAllPages. apply fetch_loop_tables. constructor.
Qed.

End RosterClaims.

Lemma preferred_roster_unchanged_witness :
  let r := getEmployeeRoster sample_random roster_store no_sessions_store
             0%nat in
  Run.outcome r = Returned sample_roster
  /\ Run.requests r
     = Run.requests (fetchAllPages roster_store "employee_manager" "*"
                       NoFilter None true 0%nat)
  /\ Run.store r
     = Run.store (fetchAllPages roster_store "employee_manager" "*"
                    NoFilter None true 0%nat)
  /\ Forall (fun rq => Request.table rq = "employee_manager")
       (Run.requests r).
Proof.
  apply (preferred_roster_unchanged sample_random roster_store
           no_sessions_store 0%nat (rows := sample_roster)).
  - vm_compute. reflexivity.
  - discriminate.
Defined.

(** *** The fallback roster *)

Section DedupFacts.

Variable random_suffix : nat -> string.

Lemma dedupe_row_keys (m : JsMap.t) (n : nat) (s : Row.t) :
  NoDup (JsMap.keys m) ->
  NoDup (JsMap.keys (fst (dedupe_row random_suffix (m, n) s)))
  /\ (forall k, JsMap.get ident_eqb k m <> None ->
                JsMap.get ident_eqb k
                  (fst (dedupe_row random_suffix (m, n) s)) <> None).
Proof.
  intros Hnd. unfold dedupe_row.
  destruct (Row.employee_name s) as [| | name]; cbn [fst]; auto.
  destruct (truthy_string name); cbn [negb fst]; auto.
  destruct (_ || _)%bool; cbn [fst]; auto.
  destruct (employee_of_row random_suffix s name n) as [e n']. cbn [fst].
  split.
  - apply (NoDup_keys_set _ ident_eqb_eq); exact Hnd.
  - intros k Hk. destruct (ident_eqb k (row_key s name)) eqn:Ek.
    + apply ident_eqb_eq in Ek; subst k.
      rewrite (get_set_same _ ident_eqb_eq). discriminate.
    + rewrite (get_set_other _ ident_eqb_eq); [exact Hk |].
      intros Hkk. apply ident_eqb_eq in Hkk. congruence.
Qed.

Lemma dedupe_row_stores (m : JsMap.t) (n : nat) (s : Row.t) (name : string) :
  Row.employee_name s = Val name -> truthy_string name = true ->
  JsMap.get ident_eqb (row_key s name)
    (fst (dedupe_row random_suffix (m, n) s)) <> None.
Proof.
  intros Hname Ht. unfold dedupe_row. rewrite Hname, Ht. cbn [negb].
  destruct (JsMap.get ident_eqb (row_key s name) m) as [existing |] eqn:G.
  - destruct (_ || _)%bool.
    + destruct (employee_of_row random_suffix s name n) as [e n']. cbn [fst].
      rewrite (get_set_same _ ident_eqb_eq). discriminate.
    + cbn [fst]. rewrite G. discriminate.
  - cbn [orb]. destruct (employee_of_row random_suffix s name n) as [e n'].
    cbn [fst]. rewrite (get_set_same _ ident_eqb_eq). discriminate.
Qed.

Lemma dedupe_fold (rows : list Row.t) (st : JsMap.t * nat) :
  NoDup (JsMap.keys (fst st)) ->
  let m' := fst (fold_left (dedupe_row random_suffix) rows st) in
  NoDup (JsMap.keys m')
  /\ (forall k, JsMap.get ident_eqb k (fst st) <> None ->
                JsMap.get ident_eqb k m' <> None)
  /\ (forall s name, In s rows -> Row.employee_name s = Val name ->
                     truthy_string name = true ->
                     JsMap.get ident_eqb (row_key s name) m' <> None).
Proof.
  revert st. induction rows as [| a l IH]; intros [m n] Hnd;
    cbn [fold_left]; cbv zeta.
  - split; [exact Hnd |]. split; [auto | intros ? ? []].
  - cbn [fst] in Hnd |- *. destruct (@dedupe_row_keys m n a Hnd) as [Hnd' Hkeep].
    destruct (dedupe_row random_suffix (m, n) a) as [m1 n1] eqn:Hstep.
    cbn [fst] in Hnd', Hkeep.
    destruct (IH (m1, n1) Hnd') as (H1 & H2 & H3). cbn [fst] in H2.
    split; [exact H1 |]. split.
    + intros k Hk. apply H2, Hkeep, Hk.
    + intros s name [<- | Hin] Hname Ht; [| eauto].
      apply H2. pose proof (@dedupe_row_stores m n a name Hname Ht) as Hs.
      rewrite Hstep in Hs. exact Hs.
Qed.

(** The deduplication of the fallback, as the code has it. The fallback
    keeps one record per key, the key of a row being its employee id when
    that is truthy and its name otherwise, and every named row has its key
    in the result. The first
    row of a key is stored. A later row of the key replaces the stored
    record when the stored record has no program and the row has a value
    in its [program] or [program_name] column, and changes nothing
    otherwise. Two rows of id "42" with programs null and "Coaching" give
    one record of id "42" and program "Coaching". *)
Theorem roster_fallback_dedup :
  (forall rows : list Row.t,
      let m := fst (fold_left (dedupe_row random_suffix) rows
                      (JsMap.empty, 0%nat)) in
      NoDup (JsMap.keys m)
      /\ forall s name, In s rows -> Row.employee_name s = Val name ->
                        truthy_string name = true ->
                        JsMap.get ident_eqb (row_key s name) m <> None)
  /\ (forall (m : JsMap.t) (n : nat) (s : Row.t) (name : string),
        Row.employee_name s = Val name -> truthy_string name = true ->
        JsMap.get ident_eqb (row_key s name) m = None ->
        dedupe_row random_suffix (m, n) s
        = (JsMap.set ident_eqb (row_key s name)
             (fst (employee_of_row random_suffix s name n)) m,
           snd (employee_of_row random_suffix s name n)))
  /\ (forall (m : JsMap.t) (n : nat) (s : Row.t) (name : string)
             (existing : Employee.t),
        Row.employee_name s = Val name -> truthy_string name = true ->
        JsMap.get ident_eqb (row_key s name) m = Some existing ->
        (truthy (Employee.program existing) = false
         /\ truthy (or_field (Row.program s) (Row.program_name s)) = true ->
         dedupe_row random_suffix (m, n) s
         = (JsMap.set ident_eqb (row_key s name)
              (fst (employee_of_row random_suffix s name n)) m,
            snd (employee_of_row random_suffix s name n)))
        /\ (~ (truthy (Employee.program existing) = false
               /\ truthy (or_field (Row.program s) (Row.program_name s))
                  = true) ->
            dedupe_row random_suffix (m, n) s = (m, n)))
  /\ map (fun e => (Employee.id e, Employee.full_name e, Employee.program e))
       (extract_employees random_suffix
          [sample_row (Val (IdStr "42")) "Ann Lee" Null Undefined Undefined
             Undefined;
           sample_row (Val (IdStr "42")) "Ann Lee" (Val "Coaching") Undefined
             Undefined Undefined])
     = [(IdStr "42", Val "Ann Lee", Val "Coaching")].
Proof.
  split; [| split; [| split]].
  - intros rows m. subst m.
    destruct (dedupe_fold rows (JsMap.empty, 0%nat)) as (H1 & _ & H3);
      [constructor |].
    split; assumption.
  - intros m n s name Hname Ht G. unfold dedupe_row.
    rewrite Hname, Ht, G. cbn [negb orb].
    destruct (employee_of_row random_suffix s name n); reflexivity.
  - intros m n s name existing Hname Ht G. unfold dedupe_row.
    rewrite Hname, Ht, G. cbn [negb orb]. unfold hasMoreInfo.
    cbn [existing_program]. split.
    + intros [-> ->]. cbn [negb andb].
      destruct (employee_of_row random_suffix s name n); reflexivity.
    + intros Hnot.
      destruct (truthy (Employee.program existing)); [reflexivity |].
      destruct (truthy (or_field (Row.program s) (Row.program_name s)));
        [exfalso; apply Hnot; auto | reflexivity].
  - reflexivity.
Qed.

End DedupFacts.

(** C5. The guard of the overwrite reads the [program] and [program_name]
    columns of a row, while the record made of a row takes its program
    from [program], [program_name], [Program] and [Program_Name]. So a
    later row that supplies its program under the [Program] column does
    not replace a stored record that has no program, although the record
    made of that row would have one: of two rows of id "42", the first
    without a program and the later with [Program] "Coaching", the one
    record kept has no program. *)
Lemma capitalised_program_not_taken :
  let first := sample_row (Val (IdStr "42")) "Ann Lee" Null Undefined
                 Undefined Undefined in
  let later := sample_row (Val (IdStr "42")) "Ann Lee" Undefined Undefined
                 (Val "Coaching") Undefined in
  exists (m : JsMap.t) (existing : Employee.t),
    dedupe_row sample_random (JsMap.empty, 0%nat) first = (m, 0%nat)
    /\ JsMap.get ident_eqb (row_key later "Ann Lee") m = Some existing
    /\ truthy (Employee.program existing) = false
    /\ truthy (Employee.program
                 (fst (employee_of_row sample_random later "Ann Lee" 0)))
       = true
    /\ dedupe_row sample_random (m, 0%nat) later = (m, 0%nat)
    /\ map (fun e => (Employee.id e, Employee.program e))
         (extract_employees sample_random [first; later])
       = [(IdStr "42", Undefined)].
Proof.
  intros first later.
  eexists. eexists. split; [vm_compute; reflexivity |].
  repeat split; vm_compute; reflexivity.
Qed.

Lemma roster_fallback_dedup_witness :
  let first := sample_row (Val (IdStr "42")) "Ann Lee" Null Undefined
                 Undefined Undefined in
  let later := sample_row (Val (IdStr "42")) "Ann Lee" (Val "Coaching")
                 Undefined Undefined Undefined in
  let m := fst (dedupe_row sample_random (JsMap.empty, 0%nat) first) in
  dedupe_row sample_random (m, 0%nat) later
  = (JsMap.set ident_eqb (IdStr "42")
       (fst (employee_of_row sample_random later "Ann Lee" 0)) m,
     0%nat).
Proof.
  intros first later m.
  apply (proj1 (proj1 (proj2 (proj2 (roster_fallback_dedup sample_random)))
                  m 0%nat later "Ann Lee"
                  (fst (employee_of_row sample_random first "Ann Lee" 0))
                  eq_refl eq_refl eq_refl)).
  split; reflexivity.
Defined.

(* ===================================================================== *)
(** * Further properties of the fetcher *)
(* ===================================================================== *)

Lemma answers_app {Src T E : Type}
    (run_query : Src -> Request.t -> Response T E * Src)
    (src : Src) (l1 l2 : list Request.t) :
  answers run_query src (l1 ++ l2)
  = (fst (answers run_query src l1)
     ++ fst (answers run_query (snd (answers run_query src l1)) l2),
     snd (answers run_query (snd (answers run_query src l1)) l2))%list.
Proof.
  revert src. induction l1 as [| rq l1 IH]; intros src; simpl.
  - destruct (answers run_query src l2); reflexivity.
  - destruct (run_query src rq) as [resp src']. rewrite IH.
    destruct (answers run_query src' l1) as [r1 s1]. simpl.
    destruct (answers run_query s1 l2); reflexivity.
Qed.

Lemma firstn_add {A : Type} (a b : nat) (l : list A) :
  firstn (a + b) l = (firstn a l ++ firstn b (skipn a l))%list.
Proof.
  revert l. induction a as [| a IH]; intros l; simpl; [reflexivity |].
  destruct l as [| x l]; simpl.
  - rewrite firstn_nil. reflexivity.
  - rewrite IH. reflexivity.
Qed.

Section FetchMore.

Context {Src T E : Type}.
Variable run_query : Src -> Request.t -> Response T E * Src.
Variable tableName selectQuery : string.
Variable filters : Filter.
Variable orderBy : option string.

(** What a pass that ends the loop with rows returns, and why it ends. *)
Lemma iteration_done_rows (st : Loop.t Src T) (r : Run.t Src (list T) E)
    (rows : list T) :
  iteration run_query tableName selectQuery filters orderBy st = Done r ->
  Run.outcome r = Returned rows ->
  let resp := fst (run_query (Loop.src st)
                     (page_request tableName selectQuery filters orderBy
                        (Loop.page st))) in
  rows = (Loop.allData st ++ rows_of resp)%list
  /\ (50 < Loop.page st + 1 \/ len (rows_of resp) < pageSize).
Proof.
  unfold iteration.
  destruct (run_query (Loop.src st)
              (page_request tableName selectQuery filters orderBy
                 (Loop.page st))) as [resp src'].
  cbn [fst]. destruct resp as [e | data].
  - intros H; injection H as <-. discriminate.
  - assert (Hlen0 : forall d : list T, (0 <? len d) = false -> d = []).
    { intros d Hd. apply Z.ltb_ge in Hd. unfold len in Hd.
      destruct d; [reflexivity | simpl in Hd; lia]. }
    destruct data as [d |]; cbn [rows_of].
    + destruct (0 <? len d) eqn:Hpos.
      * destruct (len d <? pageSize) eqn:Hfull; cbn [negb].
        -- apply Z.ltb_lt in Hfull.
           destruct (50 <? Loop.page st + 1); intros H; injection H as <-;
             cbn; intros Hr; injection Hr as <-; auto.
        -- destruct (50 <? Loop.page st + 1) eqn:Hcap; [| discriminate].
           apply Z.ltb_lt in Hcap.
           intros H; injection H as <-; cbn; intros Hr; injection Hr as <-.
           auto.
      * rewrite (Hlen0 d Hpos), app_nil_r.
        destruct (50 <? Loop.page st + 1); intros H; injection H as <-;
          cbn; intros Hr; injection Hr as <-; split; auto;
          right; reflexivity.
    + rewrite app_nil_r.
      destruct (50 <? Loop.page st + 1); intros H; injection H as <-;
        cbn; intros Hr; injection Hr as <-; split; auto;
        right; reflexivity.
Qed.

Lemma replayed_extend (src0 : Src) (st : Loop.t Src T) :
  replayed run_query tableName selectQuery filters orderBy src0 st ->
  let rq := page_request tableName selectQuery filters orderBy
              (Loop.page st) in
  (Loop.reqs st ++ [rq])%list
  = map (fun i => page_request tableName selectQuery filters orderBy
                    (Z.of_nat i))
      (seq 0 (Z.to_nat (Loop.page st + 1)))
  /\ snd (answers run_query src0 (Loop.reqs st ++ [rq]))
     = snd (run_query (Loop.src st) rq)
  /\ List.concat (map rows_of
               (fst (answers run_query src0 (Loop.reqs st ++ [rq]))))
     = (Loop.allData st ++ rows_of (fst (run_query (Loop.src st) rq)))%list.
Proof.
  intros (Hp & Hr & Hs & Ha) rq. split; [| split].
  - replace (Z.to_nat (Loop.page st + 1))
      with (Z.to_nat (Loop.page st) + 1)%nat by lia.
    rewrite seq_app, map_app, <- Hr. cbn [seq map Nat.add].
    subst rq. rewrite Z2Nat.id by lia. reflexivity.
  - rewrite answers_app. cbn [snd]. rewrite Hs. cbn [answers].
    destruct (run_query (Loop.src st) rq); reflexivity.
  - rewrite answers_app. cbn [fst]. rewrite Hs, map_app, concat_app, <- Ha.
    cbn [answers]. destruct (run_query (Loop.src st) rq) as [resp s'].
    cbn [fst map List.concat]. rewrite app_nil_r. reflexivity.
Qed.

Lemma fetch_loop_replay (src0 : Src) (st : Loop.t Src T) :
  replayed run_query tableName selectQuery filters orderBy src0 st ->
  let r := fetch_loop run_query tableName selectQuery filters orderBy st in
  (exists n : nat,
      (1 <= n <= 51)%nat
      /\ Run.requests r
         = map (fun i => page_request tableName selectQuery filters orderBy
                           (Z.of_nat i))
             (seq 0 n))
  /\ snd (answers run_query src0 (Run.requests r)) = Run.store r
  /\ forall rows, Run.outcome r = Returned rows ->
       rows = List.concat (map rows_of
                        (fst (answers run_query src0 (Run.requests r)))).
Proof.
  revert st.
  apply (loop_induction run_query tableName selectQuery filters orderBy
    (fun st => replayed run_query tableName selectQuery filters orderBy src0 st ->
       let r := fetch_loop run_query tableName selectQuery filters orderBy st in
       (exists n : nat,
           (1 <= n <= 51)%nat
           /\ Run.requests r
              = map (fun i => page_request tableName selectQuery filters
                                orderBy (Z.of_nat i))
                  (seq 0 n))
       /\ snd (answers run_query src0 (Run.requests r)) = Run.store r
       /\ forall rows, Run.outcome r = Returned rows ->
            rows = List.concat (map rows_of
                     (fst (answers run_query src0 (Run.requests r)))))).
  intros st IH Hinv. cbv zeta.
  pose proof (replayed_extend Hinv) as (Hreqs & Hstore & Hrows).
  cbv zeta in Hreqs, Hstore, Hrows.
  pose proof Hinv as (Hp & _).
  rewrite fetch_loop_body.
  destruct (iteration run_query tableName selectQuery filters orderBy st)
    as [r | st'] eqn:Hi.
  - pose proof Hi as Hd. apply iteration_done in Hd as (Hrq & Hst & _).
    split; [| split].
    + exists (Z.to_nat (Loop.page st + 1)). split; [lia |].
      rewrite Hrq. exact Hreqs.
    + rewrite Hrq, Hstore, Hst. reflexivity.
    + intros rows Hout. rewrite Hrq, Hrows.
      apply (iteration_done_rows _ Hi Hout).
  - pose proof Hi as Hn.
    apply iteration_next in Hn as (Hp' & Hcap & Hr' & d & Hq & _ & Ha').
    apply (IH st' eq_refl). unfold replayed.
    rewrite Hr', Hp'. split; [lia |]. split; [exact Hreqs |].
    split.
    + rewrite Hstore, Hq. reflexivity.
    + rewrite Hrows, Hq. exact Ha'.
Qed.

(** X1. The rows that a fetch returns are the rows of the responses to its
    requests, page after page, and the store is left as those requests
    leave it. *)
Theorem fetch_returns_the_pages (silent : bool) (src : Src) :
  let r := fetchAllPages run_query tableName selectQuery filters orderBy
             silent src in
  snd (answers run_query src (Run.requests r)) = Run.store r
  /\ forall rows, Run.outcome r = Returned rows ->
       rows = List.concat (map rows_of
                        (fst (answers run_query src (Run.requests r)))).
Proof.
  unfold fetchAllPages.
  destruct (@fetch_loop_replay src (Loop.mk src 0 [] [])) as (_ & H1 & H2).
  - unfold replayed. cbn. repeat split; lia.
  - cbv zeta. split; assumption.
Qed.

(** X2. A fetch issues between 1 and 51 requests, and they are the pages
    0, 1, 2, ... in order: the request of index [i] asks for the rows
    [1000 i] to [1000 i + 999], so the ranges neither overlap nor leave a
    gap. *)
Theorem fetch_requests_consecutive_pages (silent : bool) (src : Src) :
  let r := fetchAllPages run_query tableName selectQuery filters orderBy
             silent src in
  exists n : nat,
    (1 <= n <= 51)%nat
    /\ Run.requests r
       = map (fun i => page_request tableName selectQuery filters orderBy
                         (Z.of_nat i))
           (seq 0 n)
    /\ forall i rq, nth_error (Run.requests r) i = Some rq ->
         Request.from rq = 1000 * Z.of_nat i
         /\ Request.to rq = 1000 * Z.of_nat i + 999
         /\ Request.table rq = tableName
         /\ Request.filter rq = filters.
Proof.
  unfold fetchAllPages.
  destruct (@fetch_loop_replay src (Loop.mk src 0 [] []))
    as ((n & Hn & Hreq) & _).
  - unfold replayed. cbn. repeat split; lia.
  - cbv zeta. exists n. split; [exact Hn |]. split; [exact Hreq |].
    intros i rq Hnth. rewrite Hreq in Hnth.
    rewrite nth_error_map in Hnth.
    destruct (nth_error (seq 0 n) i) as [j |] eqn:Hj; [| discriminate].
    apply nth_error_In in Hj as Hin. apply in_seq in Hin.
    assert (j = i).
    { pose proof (nth_error_nth _ _ 0%nat Hj) as Hnthj.
      assert (Hlt : (i < List.length (seq 0 n))%nat)
        by (apply nth_error_Some; rewrite Hj; discriminate).
      rewrite length_seq in Hlt. rewrite seq_nth in Hnthj; lia. }
    subst j. cbn [option_map] in Hnth. injection Hnth as <-.
    unfold page_request, pageSize.
    cbn [Request.from Request.to Request.table Request.filter].
    repeat split; lia.
Qed.

End FetchMore.

Section FetchTables.

Context {Src T E : Type}.
Variable run_query : Src -> Request.t -> Response T E * Src.
Variable tableName selectQuery : string.
Variable filters : Filter.
Variable orderBy : option string.

Lemma fetch_loop_bounded (st : Loop.t Src T) :
  (forall src rq d, fst (run_query src rq) = Data (Some d) ->
                    len d <= pageSize) ->
  0 <= Loop.page st <= 50 ->
  len (Loop.allData st) <= 1000 * Loop.page st ->
  forall rows,
    Run.outcome (fetch_loop run_query tableName selectQuery filters orderBy st)
    = Returned rows ->
    len rows <= 51000.
Proof.
  intros Hstore. revert st.
  apply (loop_induction run_query tableName selectQuery filters orderBy
    (fun st => 0 <= Loop.page st <= 50 ->
       len (Loop.allData st) <= 1000 * Loop.page st ->
       forall rows,
         Run.outcome (fetch_loop run_query tableName selectQuery filters
                        orderBy st) = Returned rows ->
         len rows <= 51000)).
  intros st IH Hp Hlen rows. rewrite fetch_loop_body.
  destruct (iteration run_query tableName selectQuery filters orderBy st)
    as [r | st'] eqn:Hi.
  - intros Hout.
    destruct (iteration_done_rows _ _ _ _ _ _ Hi Hout) as [-> _].
    assert (Hd : len (rows_of
                   (fst (run_query (Loop.src st)
                           (page_request tableName selectQuery filters
                              orderBy (Loop.page st))))) <= 1000).
    { destruct (fst (run_query (Loop.src st)
                       (page_request tableName selectQuery filters orderBy
                          (Loop.page st)))) as [e | [d |]] eqn:Hq;
        cbn [rows_of]; try (unfold len; simpl; lia).
      apply (Hstore _ _ _ Hq). }
    unfold len in *. rewrite length_app. lia.
  - pose proof Hi as Hn.
    apply iteration_next in Hn as (Hp' & Hcap & _ & d & Hq & _ & Ha').
    apply (IH st' eq_refl); [lia |].
    assert (Hd : len d <= pageSize).
    { apply (Hstore (Loop.src st)
               (page_request tableName selectQuery filters orderBy
                  (Loop.page st))). rewrite Hq. reflexivity. }
    rewrite Ha', Hp'. unfold len, pageSize in *. rewrite length_app. lia.
Qed.

(** X3. Against a store that never answers a request with more rows than
    the page size, a fetch returns at most 51,000 rows. *)
Theorem fetch_returns_at_most_51000_rows (silent : bool) (src : Src)
    (rows : list T) :
  (forall src' rq d, fst (run_query src' rq) = Data (Some d) ->
                     len d <= pageSize) ->
  Run.outcome (fetchAllPages run_query tableName selectQuery filters orderBy
                 silent src) = Returned rows ->
  len rows <= 51000.
Proof.
  intros Hstore. unfold fetchAllPages.
  apply fetch_loop_bounded; cbn; [exact Hstore | lia | lia].
Qed.

Lemma fetch_loop_table (table : list T) (st : Loop.t Src T) :
  (forall src rq, fst (run_query src rq) = Data (Some (slice table rq))) ->
  0 <= Loop.page st <= 50 ->
  1000 * Loop.page st <= len table ->
  Loop.allData st = firstn (Z.to_nat (1000 * Loop.page st)) table ->
  Run.outcome (fetch_loop run_query tableName selectQuery filters orderBy st)
  = Returned (firstn (Z.to_nat 51000) table).
Proof.
  intros Hstore. revert st.
  apply (loop_induction run_query tableName selectQuery filters orderBy
    (fun st => 0 <= Loop.page st <= 50 ->
       1000 * Loop.page st <= len table ->
       Loop.allData st = firstn (Z.to_nat (1000 * Loop.page st)) table ->
       Run.outcome (fetch_loop run_query tableName selectQuery filters
                      orderBy st)
       = Returned (firstn (Z.to_nat 51000) table))).
  intros st IH Hp Hfull Hdata. rewrite fetch_loop_body.
  assert (Hslice :
    slice table (page_request tableName selectQuery filters orderBy
                   (Loop.page st))
    = firstn 1000 (skipn (Z.to_nat (1000 * Loop.page st)) table)).
  { unfold slice, page_request, pageSize. cbn [Request.from Request.to].
    f_equal; [lia | f_equal; lia]. }
  assert (Hnext :
    (Loop.allData st
     ++ slice table (page_request tableName selectQuery filters orderBy
                       (Loop.page st)))%list
    = firstn (Z.to_nat (1000 * (Loop.page st + 1))) table).
  { rewrite Hslice, Hdata.
    replace (Z.to_nat (1000 * (Loop.page st + 1)))
      with (Z.to_nat (1000 * Loop.page st) + 1000)%nat by lia.
    symmetry. apply firstn_add. }
  destruct (iteration run_query tableName selectQuery filters orderBy st)
    as [r | st'] eqn:Hi.
  - pose proof Hi as Hd. apply iteration_done in Hd as (_ & _ & Hkind).
    rewrite Hstore in Hkind. destruct Hkind as [rows Hout].
    rewrite Hout. f_equal.
    destruct (iteration_done_rows _ _ _ _ _ _ Hi Hout) as [-> Hwhy].
    rewrite Hstore in Hwhy |- *. cbn [rows_of] in Hwhy |- *.
    rewrite Hnext. destruct Hwhy as [Hcap | Hshort].
    + f_equal. lia.
    + rewrite Hslice in Hshort. unfold len, pageSize in *.
      rewrite length_firstn, length_skipn in Hshort.
      rewrite !firstn_all2 by lia. reflexivity.
  - pose proof Hi as Hn.
    apply iteration_next in Hn as (Hp' & Hcap & _ & d & Hq & Hd & Ha').
    assert (Hdeq : d = slice table
                         (page_request tableName selectQuery filters orderBy
                            (Loop.page st))).
    { pose proof (Hstore (Loop.src st)
                    (page_request tableName selectQuery filters orderBy
                       (Loop.page st))) as Hs.
      rewrite Hq in Hs. cbn [fst] in Hs. congruence. }
    apply (IH st' eq_refl); [lia | |].
    + rewrite Hp'. rewrite Hdeq, Hslice in Hd. unfold len, pageSize in *.
      rewrite length_firstn, length_skipn in Hd. lia.
    + rewrite Ha', Hdeq, Hp'. exact Hnext.
Qed.

(** X4. Against a store that answers every range request out of one
    unchanging table, a fetch returns the first 51,000 rows of the table in
    their order: the whole table when it has no more rows than that. *)
Theorem fetch_of_a_table (silent : bool) (src : Src) (table : list T) :
  (forall src' rq, fst (run_query src' rq) = Data (Some (slice table rq))) ->
  Run.outcome (fetchAllPages run_query tableName selectQuery filters orderBy
                 silent src) = Returned (firstn (Z.to_nat 51000) table)
  /\ (len table <= 51000 ->
      Run.outcome (fetchAllPages run_query tableName selectQuery filters
                     orderBy silent src) = Returned table).
Proof.
  intros Hstore.
  assert (H : Run.outcome (fetchAllPages run_query tableName selectQuery
                             filters orderBy silent src)
              = Returned (firstn (Z.to_nat 51000) table)).
  { unfold fetchAllPages. apply fetch_loop_table; cbn; try lia.
    - exact Hstore.
    - unfold len. lia.
    - reflexivity. }
  split; [exact H |]. intros Hlen. rewrite H.
  rewrite firstn_all2; [reflexivity | unfold len in Hlen; lia].
Qed.

End FetchTables.

Lemma fetch_returns_at_most_51000_rows_witness :
  match Run.outcome (fetchAllPages (table_store (E:=unit) [true; false; true])
                       "session_tracking" "*" NoFilter (Some "created_at")
                       false 0%nat) with
  | Returned rows => len rows <= 51000
  | Thrown _ => True
  end.
Proof.
  destruct (Run.outcome (fetchAllPages
                           (table_store (E:=unit) [true; false; true])
                           "session_tracking" "*" NoFilter
                           (Some "created_at") false 0%nat))
    as [rows | e] eqn:Hout; [| exact I].
  apply (fetch_returns_at_most_51000_rows
           (table_store (E:=unit) [true; false; true]) "session_tracking" "*"
           NoFilter (Some "created_at") false 0%nat); [| exact Hout].
  intros src' rq d H. unfold table_store in H. cbn [fst] in H.
  injection H as <-. unfold len, pageSize.
  rewrite length_firstn, length_skipn. cbn [List.length]. lia.
Defined.

Lemma fetch_of_a_table_witness :
  Run.outcome (fetchAllPages (table_store (E:=unit) (seq 0 2400))
                 "session_tracking" "*" NoFilter None false 0%nat)
  = Returned (seq 0 2400).
Proof.
  apply (fetch_of_a_table (table_store (E:=unit) (seq 0 2400))
           "session_tracking" "*" NoFilter None false 0%nat (seq 0 2400)).
  - intros src' rq. reflexivity.
  - vm_compute. discriminate.
Defined.

(* ===================================================================== *)
(** * Further properties of the roster *)
(* ===================================================================== *)

(** ** Splitting a name at its spaces *)

Lemma split_space_nonempty (s : string) : split_space s <> [].
Proof.
  induction s as [| c r IH]; simpl; [discriminate |].
  destruct (Ascii.eqb c " "); [discriminate |].
  destruct (split_space r); [contradiction | discriminate].
Qed.

Lemma join_space_cons (w : string) (ws : list string) :
  ws <> [] -> join_space (w :: ws) = w ++ " " ++ join_space ws.
Proof. destruct ws; [contradiction | reflexivity]. Qed.

(** Joining what a split gives restores the string. *)
Lemma join_split_space (s : string) : join_space (split_space s) = s.
Proof.
  induction s as [| c r IH]; simpl; [reflexivity |].
  destruct (Ascii.eqb c " ") eqn:Ec.
  - apply Ascii.eqb_eq in Ec; subst c.
    rewrite join_space_cons by apply split_space_nonempty.
    rewrite IH. reflexivity.
  - pose proof (split_space_nonempty r) as Hne.
    destruct (split_space r) as [| w ws]; [contradiction |].
    destruct ws as [| w' ws].
    + simpl in IH |- *. rewrite IH. reflexivity.
    + rewrite join_space_cons by discriminate.
      rewrite join_space_cons in IH by discriminate.
      simpl. rewrite <- IH. reflexivity.
Qed.

Lemma head_split_no_space (s : string) :
  includes (head_str (split_space s)) " " = false.
Proof.
  induction s as [| c r IH]; simpl; [reflexivity |].
  destruct (Ascii.eqb c " ") eqn:Ec; [reflexivity |].
  pose proof (split_space_nonempty r) as Hne.
  destruct (split_space r) as [| w ws]; [contradiction |].
  cbn [head_str] in IH |- *. rewrite includes_unfold.
  assert (Hp : String.prefix " " (String c w) = false).
  { destruct (String.prefix " " (String c w)) eqn:Hp; [| reflexivity].
    apply prefix_app in Hp as [post Hp]. simpl in Hp. injection Hp as -> _.
    discriminate. }
  rewrite Hp. exact IH.
Qed.

Lemma split_space_parts (s : string) :
  let f := head_str (split_space s) in
  let l := join_space (tl (split_space s)) in
  includes f " " = false
  /\ ((includes s " " = true /\ s = f ++ " " ++ l)
      \/ (includes s " " = false /\ s = f /\ l = "")).
Proof.
  cbv zeta. split; [apply head_split_no_space |].
  pose proof (join_split_space s) as Hj.
  pose proof (head_split_no_space s) as Hh.
  pose proof (split_space_nonempty s) as Hne.
  destruct (split_space s) as [| f ws]; [contradiction |].
  cbn [head_str tl] in *. destruct ws as [| w ws].
  - right. simpl in Hj. subst f. auto.
  - left. rewrite join_space_cons in Hj by discriminate.
    split; [| symmetry; exact Hj].
    apply includes_app. exists f, (join_space (w :: ws)). symmetry. exact Hj.
Qed.

Section RosterMore.

Variable random_suffix : nat -> string.

Lemma employee_of_row_fields (s : Row.t) (name : string) (n : nat) :
  let e := fst (employee_of_row random_suffix s name n) in
  Employee.full_name e = Val name
  /\ Employee.first_name e = Val (head_str (split_space name))
  /\ Employee.last_name e = Val (join_space (tl (split_space name)))
  /\ Employee.program e
     = or_field (or_field (or_field (Row.program s) (Row.program_name s))
                          (Row.Program s))
                (Row.Program_Name s)
  /\ Employee.id e = fst (row_id random_suffix s n).
Proof.
  unfold employee_of_row. destruct (row_id random_suffix s n) as [i n'].
  cbn. auto.
Qed.

(** X5. The record made from a row splits the name at its first space: the
    first name has no space, and the full name is the first name alone, or
    the first name, a space and the last name. *)
Theorem extracted_names_split_the_full_name (s : Row.t) (name : string)
    (n : nat) :
  let e := fst (employee_of_row random_suffix s name n) in
  exists f l,
    Employee.first_name e = Val f /\ Employee.last_name e = Val l
    /\ Employee.full_name e = Val name
    /\ includes f " " = false
    /\ ((includes name " " = true /\ name = f ++ " " ++ l)
        \/ (includes name " " = false /\ name = f /\ l = "")).
Proof.
  cbv zeta.
  destruct (employee_of_row_fields s name n) as (Hfull & Hf & Hl & _).
  exists (head_str (split_space name)), (join_space (tl (split_space name))).
  split; [exact Hf |]. split; [exact Hl |]. split; [exact Hfull |].
  apply split_space_parts.
Qed.

(** A record that has a program stays as it is. *)
Lemma dedupe_row_frozen (m : JsMap.t) (n : nat) (s : Row.t) (k : ident)
    (e : Employee.t) :
  JsMap.get ident_eqb k m = Some e ->
  truthy (Employee.program e) = true ->
  JsMap.get ident_eqb k (fst (dedupe_row random_suffix (m, n) s)) = Some e.
Proof.
  intros G Hp. unfold dedupe_row.
  destruct (Row.employee_name s) as [| | name]; cbn [fst]; auto.
  destruct (truthy_string name); cbn [negb fst]; auto.
  destruct (ident_eqb k (row_key s name)) eqn:Ek.
  - apply ident_eqb_eq in Ek; subst k. rewrite G. unfold hasMoreInfo.
    cbn [existing_program orb]. rewrite Hp. cbn [negb andb fst]. exact G.
  - assert (Hne : k <> row_key s name).
    { intros Hkk. apply ident_eqb_eq in Hkk. congruence. }
    destruct (_ || _)%bool; cbn [fst]; auto.
    destruct (employee_of_row random_suffix s name n) as [e' n']. cbn [fst].
    rewrite (get_set_other _ ident_eqb_eq) by exact Hne. exact G.
Qed.

Lemma dedupe_fold_frozen (rows : list Row.t) (st : JsMap.t * nat) (k : ident)
    (e : Employee.t) :
  JsMap.get ident_eqb k (fst st) = Some e ->
  truthy (Employee.program e) = true ->
  JsMap.get ident_eqb k (fst (fold_left (dedupe_row random_suffix) rows st))
  = Some e.
Proof.
  revert st. induction rows as [| a l IH]; intros [m n] G Hp;
    cbn [fold_left]; [exact G |].
  apply IH; [| exact Hp]. cbn [fst] in G.
  exact (@dedupe_row_frozen m n a k e G Hp).
Qed.

Lemma dedupe_row_takes_program (m : JsMap.t) (n : nat) (s : Row.t)
    (name : string) :
  Row.employee_name s = Val name -> truthy_string name = true ->
  truthy (or_field (Row.program s) (Row.program_name s)) = true ->
  exists e,
    JsMap.get ident_eqb (row_key s name)
      (fst (dedupe_row random_suffix (m, n) s)) = Some e
    /\ truthy (Employee.program e) = true.
Proof.
  intros Hname Ht Hprog.
  assert (Hnew : truthy (Employee.program
                           (fst (employee_of_row random_suffix s name n)))
                 = true).
  { destruct (employee_of_row_fields s name n) as (_ & _ & _ & -> & _).
    rewrite (truthy_or_field
               (or_field (or_field (Row.program s) (Row.program_name s))
                         (Row.Program s))
               (Row.Program_Name s)),
            (truthy_or_field
               (or_field (Row.program s) (Row.program_name s))
               (Row.Program s)), Hprog.
    reflexivity. }
  unfold dedupe_row. rewrite Hname, Ht. cbn [negb].
  destruct (JsMap.get ident_eqb (row_key s name) m) as [existing |] eqn:G.
  - unfold hasMoreInfo. cbn [existing_program orb]. rewrite Hprog.
    destruct (truthy (Employee.program existing)) eqn:He; cbn [negb andb].
    + cbn [fst]. exists existing. auto.
    + destruct (employee_of_row random_suffix s name n) as [e n'].
      cbn [fst] in *. exists e.
      rewrite (get_set_same _ ident_eqb_eq). auto.
  - cbn [orb]. destruct (employee_of_row random_suffix s name n) as [e n'].
    cbn [fst] in *. exists e. rewrite (get_set_same _ ident_eqb_eq). auto.
Qed.

(** X6. When a named row has a value in its [program] or [program_name]
    column, the record that the fallback keeps for the row's key has a
    program, wherever the row stands among the rows of that key. *)
Theorem extracted_record_has_a_program (rows : list Row.t) (s : Row.t)
    (name : string) :
  In s rows ->
  Row.employee_name s = Val name -> truthy_string name = true ->
  truthy (or_field (Row.program s) (Row.program_name s)) = true ->
  exists e,
    JsMap.get ident_eqb (row_key s name)
      (fst (fold_left (dedupe_row random_suffix) rows (JsMap.empty, 0%nat)))
    = Some e
    /\ truthy (Employee.program e) = true
    /\ In e (extract_employees random_suffix rows).
Proof.
  intros Hin Hname Ht Hprog.
  assert (Hgen : forall l st, In s l ->
    exists e,
      JsMap.get ident_eqb (row_key s name)
        (fst (fold_left (dedupe_row random_suffix) l st)) = Some e
      /\ truthy (Employee.program e) = true).
  { induction l as [| a l IH]; intros [m n] Hl; [contradiction |].
    cbn [fold_left]. destruct Hl as [-> | Hl].
    - destruct (@dedupe_row_takes_program m n s name Hname Ht Hprog)
        as (e & G & Hp).
      exists e. split; [| exact Hp].
      apply dedupe_fold_frozen; assumption.
    - apply IH. exact Hl. }
  destruct (Hgen rows (JsMap.empty, 0%nat) Hin) as (e & G & Hp).
  exists e. split; [exact G |]. split; [exact Hp |].
  unfold extract_employees. apply (get_In_values _ _ _ G).
Qed.

(** Every stored record is the record of a named row. *)
Lemma dedupe_row_sound (rows : list Row.t) (m : JsMap.t) (n : nat)
    (s : Row.t) :
  In s rows ->
  Forall (fun kv => exists s' name' n',
            In s' rows /\ Row.employee_name s' = Val name'
            /\ truthy_string name' = true
            /\ fst kv = row_key s' name'
            /\ snd kv = fst (employee_of_row random_suffix s' name' n')) m ->
  Forall (fun kv => exists s' name' n',
            In s' rows /\ Row.employee_name s' = Val name'
            /\ truthy_string name' = true
            /\ fst kv = row_key s' name'
            /\ snd kv = fst (employee_of_row random_suffix s' name' n'))
    (fst (dedupe_row random_suffix (m, n) s)).
Proof.
  intros Hin Hm. unfold dedupe_row.
  destruct (Row.employee_name s) as [| | name] eqn:Hname; cbn [fst]; auto.
  destruct (truthy_string name) eqn:Ht; cbn [negb fst]; auto.
  destruct (_ || _)%bool; cbn [fst]; auto.
  destruct (employee_of_row random_suffix s name n) as [e n'] eqn:He.
  cbn [fst]. apply (Forall_set _ ident_eqb_eq); [| exact Hm].
  exists s, name, n. rewrite He. cbn [fst snd]. auto.
Qed.

Lemma dedupe_row_length (m : JsMap.t) (n : nat) (s : Row.t) :
  (List.length (fst (dedupe_row random_suffix (m, n) s))
   <= S (List.length m))%nat.
Proof.
  assert (Hset : forall k (e : Employee.t),
            (List.length (JsMap.set ident_eqb k e m) <= S (List.length m))%nat).
  { intros k e. induction m as [| [k0 v0] m' IH]; simpl; [lia |].
    destruct (ident_eqb k k0); simpl; lia. }
  unfold dedupe_row.
  destruct (Row.employee_name s) as [| | name]; cbn [fst]; try lia.
  destruct (truthy_string name); cbn [negb fst]; try lia.
  destruct (_ || _)%bool; cbn [fst]; try lia.
  destruct (employee_of_row random_suffix s name n). cbn [fst]. apply Hset.
Qed.

(** X7. Every employee of the fallback roster is the record of a named row
    of the session table: its full name is that row's employee name, and
    its id is the row's employee id when that is truthy and a generated
    "gen-" id otherwise. There are no more employees than rows. *)
Theorem extracted_employees_come_from_rows (rows : list Row.t) :
  (forall e, In e (extract_employees random_suffix rows) ->
     exists s name n,
       In s rows /\ Row.employee_name s = Val name
       /\ truthy_string name = true
       /\ e = fst (employee_of_row random_suffix s name n)
       /\ Employee.full_name e = Val name
       /\ Employee.id e
          = match Row.employee_id s with
            | Val i => if truthy_ident i then i
                       else IdStr ("gen-" ++ random_suffix n)
            | _ => IdStr ("gen-" ++ random_suffix n)
            end)
  /\ len (extract_employees random_suffix rows) <= len rows.
Proof.
  split.
  - assert (Hgen : forall l st,
      incl l rows ->
      Forall (fun kv => exists s' name' n',
                In s' rows /\ Row.employee_name s' = Val name'
                /\ truthy_string name' = true
                /\ fst kv = row_key s' name'
                /\ snd kv = fst (employee_of_row random_suffix s' name' n'))
        (fst st) ->
      Forall (fun kv => exists s' name' n',
                In s' rows /\ Row.employee_name s' = Val name'
                /\ truthy_string name' = true
                /\ fst kv = row_key s' name'
                /\ snd kv = fst (employee_of_row random_suffix s' name' n'))
        (fst (fold_left (dedupe_row random_suffix) l st))).
    { induction l as [| a l IH]; intros [m n] Hincl Hm; cbn [fold_left];
        [exact Hm |].
      apply IH; [intros x Hx; apply Hincl; right; exact Hx |].
      assert (Ha : In a rows) by (apply Hincl; left; reflexivity).
      cbn [fst] in Hm.
      exact (@dedupe_row_sound rows m n a Ha Hm). }
    intros e He. unfold extract_employees, JsMap.values in He.
    apply in_map_iff in He as ([k v] & <- & Hkv).
    pose proof (Hgen rows (JsMap.empty, 0%nat) (incl_refl _)
                  (Forall_nil _)) as Hall.
    rewrite Forall_forall in Hall.
    destruct (Hall _ Hkv) as (s & name & n & Hin & Hname & Ht & _ & Hv).
    cbn [snd] in Hv |- *. exists s, name, n.
    repeat (split; [assumption |]).
    destruct (employee_of_row_fields s name n) as (Hfull & _ & _ & _ & Hid).
    cbv zeta in Hfull, Hid. rewrite <- Hv in Hfull, Hid.
    split; [exact Hfull |]. rewrite Hid. unfold row_id.
    destruct (Row.employee_id s) as [| | i]; try reflexivity.
    destruct (truthy_ident i); reflexivity.
  - assert (Hgen : forall l st,
      (List.length (fst (fold_left (dedupe_row random_suffix) l st))
       <= List.length (fst st) + List.length l)%nat).
    { induction l as [| a l IH]; intros [m n]; cbn [fold_left];
        [cbn; lia |].
      specialize (IH (dedupe_row random_suffix (m, n) a)).
      pose proof (dedupe_row_length m n a). cbn [fst List.length] in *. lia. }
    specialize (Hgen rows (JsMap.empty, 0%nat)).
    unfold extract_employees, JsMap.values, len. rewrite length_map.
    cbn [fst JsMap.empty List.length] in Hgen. lia.
Qed.

Lemma dedupe_row_keys_order (m : JsMap.t) (n : nat) (s : Row.t) :
  JsMap.keys (fst (dedupe_row random_suffix (m, n) s))
  = (JsMap.keys m ++ first_seen (JsMap.keys m) (row_keys s))%list.
Proof.
  assert (Hmem : forall k, existsb (ident_eqb k) (JsMap.keys m)
                           = match JsMap.get ident_eqb k m with
                             | Some _ => true
                             | None => false
                             end).
  { intros k. induction m as [| [k0 v0] m' IH]; simpl; [reflexivity |].
    destruct (ident_eqb k k0); [reflexivity | exact IH]. }
  unfold dedupe_row, row_keys.
  destruct (Row.employee_name s) as [| | name]; cbn [fst first_seen];
    try (rewrite app_nil_r; reflexivity).
  destruct (truthy_string name); cbn [negb fst first_seen];
    try (rewrite app_nil_r; reflexivity).
  rewrite Hmem.
  destruct (JsMap.get ident_eqb (row_key s name) m) as [existing |] eqn:G.
  - cbn [orb]. rewrite app_nil_r. destruct (hasMoreInfo _ s); cbn [fst];
      [| reflexivity].
    destruct (employee_of_row random_suffix s name n). cbn [fst].
    rewrite keys_set, G. reflexivity.
  - cbn [orb]. destruct (employee_of_row random_suffix s name n). cbn [fst].
    rewrite keys_set, G. reflexivity.
Qed.

Lemma first_seen_app (seen l1 l2 : list ident) :
  first_seen seen (l1 ++ l2)
  = (first_seen seen l1
     ++ first_seen (seen ++ first_seen seen l1) l2)%list.
Proof.
  revert seen. induction l1 as [| k l1 IH]; intros seen; cbn [app first_seen].
  - rewrite app_nil_r. reflexivity.
  - destruct (existsb (ident_eqb k) seen); [apply IH |].
    cbn [app]. rewrite IH, <- app_assoc. reflexivity.
Qed.

(** X8. The fallback roster holds one record for each key of a named row,
    in the order in which the keys first appear in the session table. *)
Theorem extracted_employees_in_first_seen_order (rows : list Row.t) :
  JsMap.keys (fst (fold_left (dedupe_row random_suffix) rows
                     (JsMap.empty, 0%nat)))
  = first_seen [] (named_keys rows)
  /\ len (extract_employees random_suffix rows)
     = len (first_seen [] (named_keys rows)).
Proof.
  assert (Hgen : forall l st,
    JsMap.keys (fst (fold_left (dedupe_row random_suffix) l st))
    = (JsMap.keys (fst st)
       ++ first_seen (JsMap.keys (fst st)) (named_keys l))%list).
  { induction l as [| a l IH]; intros [m n]; cbn [fold_left fst].
    - cbn. rewrite app_nil_r. reflexivity.
    - rewrite IH, dedupe_row_keys_order.
      unfold named_keys. cbn [flat_map].
      rewrite first_seen_app, app_assoc. reflexivity. }
  pose proof (Hgen rows (JsMap.empty, 0%nat)) as H. cbn in H.
  split; [exact H |].
  unfold extract_employees, JsMap.values, len. rewrite length_map.
  rewrite <- H. unfold JsMap.keys. rewrite length_map. reflexivity.
Qed.

Context {Src E : Type}.
Variable query_roster : Src -> Request.t -> Response Employee.t E * Src.
Variable query_sessions : Src -> Request.t -> Response Row.t E * Src.

(** X9. [getEmployeeRoster] throws exactly when the roster table gave no
    row (its fetch threw or came back empty) and the fetch of the session
    table throws; what it throws is the error of the session table, never
    that of the roster table. *)
Theorem roster_throws_only_the_fallback_error (src : Src) (e : E) :
  let r1 := fetchAllPages query_roster "employee_manager" "*" NoFilter None
              true src in
  let r2 := fetchAllPages query_sessions "session_tracking" "*"
              (NotNull "employee_name") (Some "created_at") false
              (Run.store r1) in
  Run.outcome (getEmployeeRoster random_suffix query_roster query_sessions
                 src) = Thrown e
  <-> (Run.outcome r1 = Returned [] \/ exists e1, Run.outcome r1 = Thrown e1)
      /\ Run.outcome r2 = Thrown e.
Proof.
  cbv zeta. unfold getEmployeeRoster.
  destruct (Run.outcome (fetchAllPages query_roster "employee_manager" "*"
                           NoFilter None true src)) as [d | e1] eqn:H1.
  - destruct d as [| x d].
    + cbn [len List.length Z.of_nat Z.ltb Z.compare].
      destruct (Run.outcome (fetchAllPages query_sessions _ _ _ _ _ _))
        as [d2 | e2]; cbn [Run.outcome]; split.
      * discriminate.
      * intros [_ H]; discriminate.
      * intros H; split; [auto | congruence].
      * intros [_ H]; congruence.
    + assert (Hpos : (0 <? len (x :: d)) = true)
        by (apply Z.ltb_lt; unfold len; simpl; lia).
      rewrite Hpos. cbn [Run.outcome]. split; [discriminate |].
      intros [[H | [e1 H]] _]; discriminate.
  - cbn [len List.length Z.of_nat Z.ltb Z.compare].
    destruct (Run.outcome (fetchAllPages query_sessions _ _ _ _ _ _))
      as [d2 | e2]; cbn [Run.outcome]; split.
    + discriminate.
    + intros [_ H]; discriminate.
    + intros H; split; [eauto | congruence].
    + intros [_ H]; congruence.
Qed.

End RosterMore.

(* ===================================================================== *)
(** * Properties of the session fetch *)
(* ===================================================================== *)

(** ** Trimming *)

Lemma trimEnd_blank (s : string) : trimEnd (s ++ " ") = trimEnd s.
Proof.
  induction s as [| c r IH]; simpl; [reflexivity |].
  rewrite IH. reflexivity.
Qed.

Lemma trimStart_blank (s : string) :
  trimStart (s ++ " ") = trimStart s ++ " " \/
  (trimStart (s ++ " ") = "" /\ trimStart s = "").
Proof.
  induction s as [| c r IH]; simpl; [right; auto |].
  destruct (is_blank c); [exact IH | left; reflexivity].
Qed.

Lemma trim_blank (s : string) : trim (s ++ " ") = trim s.
Proof.
  unfold trim. destruct (trimStart_blank s) as [-> | [-> ->]];
    [apply trimEnd_blank | reflexivity].
Qed.

(** The composed form of a name that was split at its first space is the
    trimmed name. *)
Lemma trim_recomposed (name : string) :
  trim (head_str (split_space name) ++ " "
        ++ join_space (tl (split_space name)))
  = trim name.
Proof.
  destruct (split_space_parts name) as (_ & [[_ H] | (_ & H1 & H2)]).
  - rewrite <- H. reflexivity.
  - rewrite H2, <- H1. apply trim_blank.
Qed.


(** X11. A session of the flat fetch that had no nested reference, and
    whose employee name is within ASCII, is named, by the aggregator, with
    its trimmed employee name, and with "Unknown" when it has none: not
    with the "Unknown Employee" of a session that reaches the aggregator
    without a reference. *)
Theorem adapted_session_display_name (s : FlatRow.t) :
  ascii_field (Session.employee_name (FlatRow.session s)) = true ->
  Session.employee_manager (FlatRow.session s) = None ->
  session_display_name (adapt_session s)
  = trim (or_lit (Session.employee_name (FlatRow.session s)) "Unknown")
  /\ (truthy (Session.employee_name (FlatRow.session s)) = false ->
      session_display_name (adapt_session s) = "Unknown"
      /\ session_display_name (FlatRow.session s) = "Unknown Employee").
Proof.
  intros _ Hm.
  assert (Hname : session_display_name (adapt_session s)
                  = trim (or_lit (Session.employee_name (FlatRow.session s))
                            "Unknown")).
  { unfold adapt_session. rewrite Hm.
    set (name := or_lit (Session.employee_name (FlatRow.session s)) "Unknown").
    assert (Htruthy : truthy (Val name) = true).
    { subst name.
      destruct (Session.employee_name (FlatRow.session s)) as [| | [| c r]];
        reflexivity. }
    erewrite session_display_name_full;
      [| cbn [Session.employee_manager]; reflexivity
       | cbn [Manager.full_name]; exact Htruthy].
    cbn [Manager.first_name Manager.last_name template].
    assert (Hlast : forall l, or_lit (Val l) "" = l)
      by (intros [| c r]; reflexivity).
    rewrite Hlast. apply trim_recomposed. }
  split; [exact Hname |]. intros Hfalsy. split.
  - rewrite Hname.
    destruct (Session.employee_name (FlatRow.session s)) as [| | [| c r]];
      try reflexivity. discriminate.
  - rewrite session_display_name_flat.
    + destruct (Session.employee_name (FlatRow.session s)) as [| | [| c r]];
        try reflexivity. discriminate.
    + intros m Hsome. congruence.
Qed.

Section SessionsMore.

Context {Src E : Type}.
Variable query_joined : Src -> Request.t -> Response Session.t E * Src.
Variable query_flat : Src -> Request.t -> Response FlatRow.t E * Src.

(** X12. When the joined fetch returns, [getDashboardSessions] returns its
    rows as they are, the empty sequence included, and issues no other
    request. When the joined fetch throws, whatever the error is, the flat
    fetch runs from the state the store was left in: its rows are adapted,
    and its error, if it throws, is the one that is thrown. *)
Theorem sessions_join_then_flat (src : Src) :
  let r1 := fetchAllPages query_joined "session_tracking" joinSelect NoFilter
              (Some "session_date") true src in
  let r2 := fetchAllPages query_flat "session_tracking" "*" NoFilter
              (Some "created_at") false (Run.store r1) in
  let r := getDashboardSessions query_joined query_flat src in
  (forall joinData, Run.outcome r1 = Returned joinData ->
     Run.outcome r = Returned joinData
     /\ Run.requests r = Run.requests r1 /\ Run.store r = Run.store r1)
  /\ (forall e1, Run.outcome r1 = Thrown e1 ->
        Run.requests r = (Run.requests r1 ++ Run.requests r2)%list
        /\ Run.store r = Run.store r2
        /\ (forall rawData, Run.outcome r2 = Returned rawData ->
              Run.outcome r = Returned (map adapt_session rawData))
        /\ (forall e2, Run.outcome r2 = Thrown e2 ->
              Run.outcome r = Thrown e2))
  /\ (forall e, Run.outcome r = Thrown e <->
        (exists e1, Run.outcome r1 = Thrown e1) /\ Run.outcome r2 = Thrown e).
Proof.
  cbv zeta. unfold getDashboardSessions.
  destruct (Run.outcome (fetchAllPages query_joined "session_tracking"
                           joinSelect NoFilter (Some "session_date") true src))
    as [d | e1] eqn:H1.
  - split; [| split].
    + intros joinData H; injection H as <-. auto.
    + intros e1 H; discriminate.
    + intros e. cbn [Run.outcome]. split; [discriminate |].
      intros [[e1 H] _]; discriminate.
  - split; [| split].
    + intros joinData H; discriminate.
    + intros e1' _.
      destruct (Run.outcome (fetchAllPages query_flat _ _ _ _ _ _))
        as [d2 | e2]; cbn [Run.outcome Run.requests Run.store];
        repeat split; try discriminate; intros ? H; injection H as <-;
        reflexivity.
    + intros e.
      destruct (Run.outcome (fetchAllPages query_flat _ _ _ _ _ _))
        as [d2 | e2]; cbn [Run.outcome]; split.
      * discriminate.
      * intros [_ H]; discriminate.
      * intros H; split; [eauto | congruence].
      * intros [_ H]; congruence.
Qed.

End SessionsMore.

Lemma adapted_session_display_name_witness :
  session_display_name
    (adapt_session (flat_row 31 (Val " Ann  Lee ") (Val "Completed") Undefined))
  = "Ann  Lee".
Proof.
  exact (proj1 (adapted_session_display_name
                  (flat_row 31 (Val " Ann  Lee ") (Val "Completed") Undefined)
                  eq_refl eq_refl)).
Defined.

Example getDashboardSessions_flat :
  let r := getDashboardSessions no_join_store flat_store 0%nat in
  match Run.outcome r with
  | Returned l => map session_display_name l
  | Thrown _ => []
  end = ["Ann Lee"; "Unknown"]
  /\ map Request.order (Run.requests r)
     = [Some "session_date"; Some "created_at"].
Proof. vm_compute. split; reflexivity. Qed.

(* ===================================================================== *)
(** * Further properties of the aggregation *)
(* ===================================================================== *)


Section AggregationMore.

Variable Date_parse : string -> option Z.
Variable clock : nat -> Z.












End AggregationMore.

(** ** The latest session of a record *)


Section LatestSession.

Variable Date_parse : string -> option Z.
Variable clock : nat -> Z.





End LatestSession.

(* ===================================================================== *)
(** * Properties of the filters and of the KPIs *)
(* ===================================================================== *)

Lemma toLowerCase_split (s x y : string) :
  toLowerCase s = x ++ y ->
  exists a b, s = a ++ b /\ toLowerCase a = x /\ toLowerCase b = y.
Proof.
  revert s. induction x as [| c x IH]; intros s H.
  - exists "", s. auto.
  - destruct s as [| c0 s0]; [discriminate |].
    simpl in H. injection H as Hc Hrest.
    destruct (IH s0 Hrest) as (a & b & -> & Ha & Hb).
    exists (String c0 a), b. simpl. rewrite Ha, Hc. auto.
Qed.

Lemma includes_contains_ci (text pat : string) :
  includes (toLowerCase text) (toLowerCase pat) = true <->
  contains_ci text pat.
Proof.
  split; [| apply contains_ci_includes].
  intros H. apply includes_app in H as (pre & post & H).
  apply toLowerCase_split in H as (a & rest & -> & Ha & Hrest).
  apply toLowerCase_split in Hrest as (u & b & -> & Hu & Hb).
  exists a, u, b. auto.
Qed.

Lemma includes_empty (s : string) : includes s "" = true.
Proof. apply includes_app. exists "", s. reflexivity. Qed.

(** X18. With the search text and the names of the records within ASCII,
    the filter keeps exactly the records whose name contains the search
    text in whatever letter case and whose program is the selected one,
    "All" standing for every program, and it keeps them in their order: at
    every place of the sequence the result is the result of what comes
    before, the record of the place when it matches, and the result of what
    comes after. With an empty search text and "All" it keeps every record,
    and filtering twice changes nothing. *)
Theorem filteredData_keeps_the_matches (searchTerm filterProgram : string)
    (stats : list Stat.t) :
  ascii_only searchTerm = true ->
  forallb (fun r => ascii_only (Stat.name r)) stats = true ->
  let kept r := contains_ci (Stat.name r) searchTerm
                /\ (filterProgram = "All" \/ Stat.program r = filterProgram) in
  (forall r, In r (filteredData searchTerm filterProgram stats) <->
     In r stats /\ kept r)
  /\ (forall before r after, stats = (before ++ r :: after)%list ->
        (kept r ->
         filteredData searchTerm filterProgram stats
         = (filteredData searchTerm filterProgram before
            ++ r :: filteredData searchTerm filterProgram after)%list)
        /\ (~ kept r ->
            filteredData searchTerm filterProgram stats
            = (filteredData searchTerm filterProgram before
               ++ filteredData searchTerm filterProgram after)%list))
  /\ filteredData "" "All" stats = stats
  /\ filteredData searchTerm filterProgram
       (filteredData searchTerm filterProgram stats)
     = filteredData searchTerm filterProgram stats.
Proof.
  intros _ _ kept.
  assert (Hkept : forall r,
             (matchesSearch searchTerm r && matchesFilter filterProgram r)%bool
             = true <-> kept r).
  { intros r. subst kept. cbv beta. unfold matchesSearch, matchesFilter.
    rewrite andb_true_iff, orb_true_iff, includes_contains_ci,
      !String.eqb_eq.
    tauto. }
  split; [| split; [| split]].
  - intros r. unfold filteredData. rewrite filter_In, Hkept. tauto.
  - intros before r after ->. unfold filteredData.
    rewrite filter_app. cbn [filter].
    destruct (matchesSearch searchTerm r && matchesFilter filterProgram r)%bool
      eqn:Hm; split; intros Hr; try reflexivity.
    + exfalso. apply Hr, Hkept, Hm.
    + apply Hkept in Hr. rewrite Hr in Hm. discriminate.
  - assert (Hall : forall r, (matchesSearch "" r
                               && matchesFilter "All" r)%bool = true).
    { intros r. unfold matchesSearch, matchesFilter. cbn [toLowerCase].
      rewrite includes_empty. reflexivity. }
    unfold filteredData. induction stats as [| r l IH]; [reflexivity |].
    cbn [filter]. rewrite Hall, IH. reflexivity.
  - unfold filteredData. induction stats as [| r l IH]; [reflexivity |].
    cbn [filter].
    destruct (matchesSearch searchTerm r && matchesFilter filterProgram r)%bool
      eqn:Hm; [| exact IH].
    cbn [filter]. rewrite Hm, IH. reflexivity.
Qed.

Lemma totalCompleted_shift (l : list Stat.t) (a : Z) :
  fold_left (fun acc curr => acc + Stat.completed curr) l a
  = a + totalCompleted l.
Proof.
  unfold totalCompleted. revert a.
  induction l as [| e l IH]; intros a; simpl; [lia |].
  rewrite IH, (IH (Stat.completed e)). lia.
Qed.

Lemma totalCompleted_cons (e : Stat.t) (l : list Stat.t) :
  totalCompleted (e :: l) = Stat.completed e + totalCompleted l.
Proof. unfold totalCompleted at 1. simpl. apply totalCompleted_shift. Qed.

Section KpiFacts.

Variable Date_parse : string -> option Z.
Variable clock : nat -> Z.

Lemma process_sessions_values (P : Stat.t -> Prop)
    (sessions : list Session.t) (i : nat) (m : JsMap.t) :
  (forall s, P (fresh_stat s)) ->
  (forall now s e, P e -> P (update_entry Date_parse now s e)) ->
  Forall P (JsMap.values m) ->
  Forall P (JsMap.values (process_sessions Date_parse clock i sessions m)).
Proof.
  intros Hfresh Hupd. revert i m.
  induction sessions as [| s l IH]; intros i m Hm; cbn [process_sessions];
    [exact Hm |].
  apply IH. rewrite process_session_eq.
  assert (Hbefore : P (entry_before m s)).
  { unfold entry_before.
    destruct (JsMap.get String.eqb (session_key s) m) as [e |] eqn:G;
      [| apply Hfresh].
    rewrite Forall_forall in Hm. apply Hm. apply (get_In_values _ _ _ G). }
  apply Forall_values_set; [apply Hupd; exact Hbefore |].
  destruct (JsMap.get String.eqb (session_key s) m); [exact Hm |].
  apply Forall_values_set; [apply Hfresh | exact Hm].
Qed.

Lemma aggregatedStats_counted (sessions : list Session.t)
    (employees : list Employee.t) :
  Forall (fun e => counted e /\ balanced e)
    (aggregatedStats Date_parse clock sessions employees).
Proof.
  unfold aggregatedStats, aggregate_map. apply process_sessions_values.
  - intros s. unfold counted, balanced. cbn. lia.
  - intros now s e [Hc Hb]. split.
    + unfold counted in *.
      pose proof (update_entry_counters Date_parse now s e) as [Ht Hk].
      cbv zeta in Ht, Hk.
      destruct (session_bucket Date_parse now s); lia.
    + apply update_entry_balanced. exact Hb.
  - destruct (seed_invariant (P := fun e => counted e /\ balanced e)
                employees (m := JsMap.empty)) as (_ & _ & H).
    + intros emp. unfold counted, balanced. cbn. lia.
    + split; [constructor | split; constructor].
    + exact H.
Qed.

Lemma aggregatedStats_total (sessions : list Session.t)
    (employees : list Employee.t) :
  totalSessions (aggregatedStats Date_parse clock sessions employees)
  = len sessions.
Proof.
  unfold aggregatedStats, aggregate_map. rewrite sessions_total.
  destruct (seed_invariant (P := fun e => Stat.total e = 0) employees
              (m := JsMap.empty)) as (_ & _ & Hz).
  - reflexivity.
  - split; [constructor | split; constructor].
  - cbv zeta in Hz.
    assert (H0 : totalSessions
                   (JsMap.values (fold_left seed_employee employees
                                    JsMap.empty)) = 0).
    { induction Hz as [| e l He _ IH]; [reflexivity |].
      rewrite totalSessions_cons, He, IH. reflexivity. }
    rewrite H0. lia.
Qed.

Lemma filter_totals (f : Stat.t -> bool) (l : list Stat.t) :
  Forall (fun e => counted e /\ balanced e) l ->
  0 <= totalCompleted (filter f l) <= totalSessions (filter f l)
  /\ totalSessions (filter f l) <= totalSessions l
  /\ len (filter f l) <= len l.
Proof.
  induction 1 as [| e l [Hc Hb] _ IH].
  - unfold totalCompleted, totalSessions, len. simpl. lia.
  - unfold counted, balanced in *. cbn [filter].
    destruct (f e); rewrite ?totalCompleted_cons, ?totalSessions_cons;
      unfold len in *; cbn [List.length]; lia.
Qed.

(** X19. Whatever the search text and the program filter are, the KPIs of
    the filtered view are consistent: the completed sessions are between 0
    and the sessions of the view, which are no more than the sessions
    fetched, and the employees of the view are no more than the records. *)
Theorem kpis_are_bounded (searchTerm filterProgram : string)
    (sessions : list Session.t) (employees : list Employee.t) :
  let view := filteredData searchTerm filterProgram
                (aggregatedStats Date_parse clock sessions employees) in
  0 <= totalCompleted view <= totalSessions view
  /\ totalSessions view <= len sessions
  /\ totalEmployees view
     <= len (aggregatedStats Date_parse clock sessions employees).
Proof.
  cbv zeta. unfold filteredData, totalEmployees.
  destruct (filter_totals
              (fun stat => (matchesSearch searchTerm stat
                            && matchesFilter filterProgram stat)%bool)
              (aggregatedStats_counted sessions employees))
    as (H1 & H2 & H3).
  pose proof (aggregatedStats_total sessions employees) as Htot.
  split; [exact H1 |]. split; [lia | exact H3].
Qed.

End KpiFacts.

Lemma uniq_spec (seen a : list string) :
  NoDup (uniq seen a)
  /\ forall x, In x (uniq seen a) <-> In x a /\ ~ In x seen.
Proof.
  revert seen. induction a as [| y r IH]; intros seen; cbn [uniq].
  - split; [constructor | intros x; simpl; tauto].
  - assert (Hmem : existsb (String.eqb y) seen = true <-> In y seen).
    { rewrite existsb_exists. split.
      - intros (z & Hz & E). apply String.eqb_eq in E. subst. exact Hz.
      - intros Hy. exists y. split; [exact Hy | apply String.eqb_refl]. }
    destruct (existsb (String.eqb y) seen) eqn:E.
    + destruct (IH seen) as [Hnd Hin]. split; [exact Hnd |].
      intros x. rewrite Hin. simpl.
      assert (In y seen) by (apply Hmem; reflexivity).
      split; [tauto |]. intros [[<- | Hx] Hn]; [contradiction | tauto].
    + destruct (IH (y :: seen)) as [Hnd Hin].
      assert (Hy : ~ In y seen)
        by (intros Hy; apply Hmem in Hy; discriminate).
      split.
      * constructor; [| exact Hnd]. rewrite Hin. simpl. tauto.
      * intros x. simpl. rewrite Hin. simpl.
        destruct (string_dec y x) as [-> | Hne]; tauto.
Qed.

(** X20. The program filter offers "All" first and then every program of
    a record but "Unassigned", each once. *)
Theorem programs_are_the_assigned_programs (stats : list Stat.t) :
  exists rest,
    programs stats = "All" :: rest
    /\ NoDup rest
    /\ forall p, In p rest <->
         p <> "Unassigned" /\ exists r, In r stats /\ Stat.program r = p.
Proof.
  unfold programs. eexists. split; [reflexivity |].
  destruct (uniq_spec []
              (filter (fun p => negb (String.eqb p "Unassigned"))
                 (map Stat.program stats))) as [Hnd Hin].
  split; [exact Hnd |]. intros p. rewrite Hin, filter_In, in_map_iff.
  rewrite negb_true_iff, String.eqb_neq. simpl.
  split.
  - intros [[(r & Hr & Hs) Hne] _]. split; [exact Hne | eauto].
  - intros [Hne (r & Hr & Hs)]. split; [| tauto]. split; eauto.
Qed.

(* ===================================================================== *)
(** * Properties of the monthly trend *)
(* ===================================================================== *)

Lemma chart_counts_classify (status : string) (isPast : bool) :
  chart_counts status isPast = true <-> classify status isPast = Completed.
Proof.
  unfold chart_counts, classify. cbv zeta.
  destruct (includes status "no show" || includes status "noshow"
            || includes status "late cancel")%bool; cbn [negb andb].
  - split; discriminate.
  - destruct (includes status "completed"
              || (String.eqb status "" && isPast))%bool;
      split; try reflexivity; discriminate.
Qed.

(** X21. The chart counts a session exactly when the aggregator, reading
    the same clock, files it as completed. *)
Theorem chart_counts_the_completed (Date_parse : string -> option Z)
    (now : Z) (s : Session.t) :
  chart_counts (toLowerCase (status_text s))
    (date_lt (Date_parse (Session.session_date s)) (Some now)) = true
  <-> session_bucket Date_parse now s = Completed.
Proof.
  unfold session_bucket, chart_counts, classify. cbv zeta.
  destruct (includes (toLowerCase (status_text s)) "no show"
            || includes (toLowerCase (status_text s)) "noshow"
            || includes (toLowerCase (status_text s)) "late cancel")%bool;
    cbn [negb andb].
  - split; discriminate.
  - destruct (includes (toLowerCase (status_text s)) "completed"
              || (String.eqb (toLowerCase (status_text s)) ""
                  && date_lt (Date_parse (Session.session_date s))
                       (Some now)))%bool;
      split; try reflexivity; discriminate.
Qed.

Lemma sort_insert_perm (k : string) (l : list string) :
  Permutation (k :: l) (sort_insert k l).
Proof.
  induction l as [| h r IH]; simpl; [reflexivity |].
  destruct (String.leb k h); [reflexivity |].
  rewrite perm_swap. constructor. exact IH.
Qed.

Lemma sort_strings_perm (l : list string) : Permutation l (sort_strings l).
Proof.
  induction l as [| k r IH]; simpl; [constructor |].
  rewrite <- sort_insert_perm. constructor. exact IH.
Qed.

Lemma sort_insert_sorted (k : string) (l : list string) :
  Sorted (fun a b => String.leb a b = true) l ->
  Sorted (fun a b => String.leb a b = true) (sort_insert k l).
Proof.
  induction 1 as [| h r Hs IH Hh]; simpl; [repeat constructor |].
  destruct (String.leb k h) eqn:E.
  - constructor; [constructor; assumption | constructor; exact E].
  - constructor; [exact IH |].
    assert (Hhk : String.leb h k = true).
    { destruct (String.leb_total k h) as [H | H]; [congruence | exact H]. }
    destruct r as [| h' r']; simpl.
    + constructor. exact Hhk.
    + destruct (String.leb k h'); constructor; [exact Hhk |].
      inversion Hh; assumption.
Qed.

Lemma sort_strings_sorted (l : list string) :
  Sorted (fun a b => String.leb a b = true) (sort_strings l).
Proof.
  induction l as [| k r IH]; simpl; [constructor |].
  apply sort_insert_sorted. exact IH.
Qed.

Lemma counts_total_set (k : string) (v : Z) (m : JsMap.t) :
  counts_total (JsMap.set String.eqb k v m)
  = counts_total m + v
    - match JsMap.get String.eqb k m with
      | Some old => old
      | None => 0
      end.
Proof.
  induction m as [| [k0 v0] m IH]; simpl; [lia |].
  destruct (String.eqb k k0); simpl; [lia |]. rewrite IH. lia.
Qed.

Lemma count_of_keys (counts : JsMap.t (K:=string) (V:=Z)) :
  NoDup (JsMap.keys counts) ->
  fold_right (fun k acc => count_of counts k + acc) 0 (JsMap.keys counts)
  = counts_total counts.
Proof.
  induction counts as [| [k v] m IH]; intros Hnd; [reflexivity |].
  simpl in Hnd. inversion Hnd as [| ? ? Hk Hnd']; subst.
  unfold counts_total in *. unfold JsMap.keys in *.
  cbn [map fst fold_right snd].
  unfold count_of at 1. cbn [JsMap.get]. rewrite String.eqb_refl.
  f_equal. rewrite <- (IH Hnd').
  assert (Hext : forall l, ~ In k l ->
    fold_right (fun k0 acc => count_of ((k, v) :: m) k0 + acc) 0 l
    = fold_right (fun k0 acc => count_of m k0 + acc) 0 l).
  { induction l as [| x l IHl]; intros Hx; [reflexivity |].
    cbn [fold_right]. rewrite IHl by (intros Hc; apply Hx; right; exact Hc).
    f_equal. unfold count_of. cbn [JsMap.get].
    destruct (String.eqb x k) eqn:E; [| reflexivity].
    apply String.eqb_eq in E. subst. exfalso. apply Hx. left. reflexivity. }
  apply Hext. exact Hk.
Qed.

Section TrendFacts.

Variable Date_parse : string -> option Z.
Variable clock : nat -> Z.
Variable getFullYear getMonth : Z -> Z.
Variable month_label : string -> string.

Lemma count_sessions_spec (sessions : list Session.t) (i : nat) (m : JsMap.t) :
  NoDup (JsMap.keys m) -> Forall (fun kv => 1 <= snd kv) m ->
  let m' := count_sessions Date_parse clock getFullYear getMonth i sessions m in
  NoDup (JsMap.keys m')
  /\ Forall (fun kv => 1 <= snd kv) m'
  /\ counts_total m'
     = counts_total m + completed_from Date_parse clock i sessions.
Proof.
  revert i m. induction sessions as [| s l IH]; intros i m Hnd Hpos;
    cbn [count_sessions completed_from]; cbv zeta.
  - repeat split; [exact Hnd | exact Hpos | lia].
  - assert (Hstep :
      NoDup (JsMap.keys (count_session Date_parse clock getFullYear getMonth
                           i m s))
      /\ Forall (fun kv => 1 <= snd kv)
           (count_session Date_parse clock getFullYear getMonth i m s)
      /\ counts_total (count_session Date_parse clock getFullYear getMonth
                         i m s)
         = counts_total m
           + match session_bucket Date_parse (clock i) s with
             | Completed => 1
             | _ => 0
             end).
    { unfold count_session, session_bucket.
      pose proof (chart_counts_classify
                    (toLowerCase (status_text s))
                    (date_lt (Date_parse (Session.session_date s))
                       (Some (clock i)))) as Hiff.
      destruct (chart_counts (toLowerCase (status_text s))
                  (date_lt (Date_parse (Session.session_date s))
                     (Some (clock i)))) eqn:Hc.
      - rewrite (proj1 Hiff eq_refl).
        set (key := month_key getFullYear getMonth
                      (Date_parse (Session.session_date s))).
        assert (Hold : match JsMap.get String.eqb key m with
                       | Some n => if n =? 0 then 0 else n
                       | None => 0
                       end
                       = match JsMap.get String.eqb key m with
                         | Some old => old
                         | None => 0
                         end
                       /\ 0 <= match JsMap.get String.eqb key m with
                               | Some old => old
                               | None => 0
                               end).
        { destruct (JsMap.get String.eqb key m) as [n |] eqn:G; [| lia].
          assert (1 <= n).
          { rewrite Forall_forall in Hpos.
            destruct (get_split _ string_eqb_eq _ _ Hnd G)
              as (m1 & m2 & Hm & _).
            apply (Hpos (key, n)). rewrite Hm. apply in_or_app. right.
            left. reflexivity. }
          destruct (n =? 0) eqn:E; [apply Z.eqb_eq in E; lia | lia]. }
        destruct Hold as [Hold Hge]. rewrite Hold.
        split; [apply (NoDup_keys_set _ string_eqb_eq); exact Hnd |].
        split.
        + apply (Forall_set _ string_eqb_eq); [cbn [snd]; lia | exact Hpos].
        + rewrite counts_total_set. lia.
      - assert (Hb : classify (toLowerCase (status_text s))
                       (date_lt (Date_parse (Session.session_date s))
                          (Some (clock i))) <> Completed).
        { intros Hcl. apply Hiff in Hcl. discriminate. }
        split; [exact Hnd |]. split; [exact Hpos |].
        destruct (classify _ _); [lia | contradiction | lia]. }
    destruct Hstep as (Hnd1 & Hpos1 & Hsum1).
    destruct (IH (S i) _ Hnd1 Hpos1) as (H1 & H2 & H3). cbv zeta in H3.
    repeat split; [exact H1 | exact H2 |]. rewrite H3, Hsum1. lia.
Qed.

Lemma chart_total_map (counts : JsMap.t (K:=string) (V:=Z))
    (keys : list string) :
  chart_total (map (fun key => Point.mk (month_label key)
                                 (count_of counts key)) keys)
  = fold_right (fun k acc => count_of counts k + acc) 0 keys.
Proof.
  induction keys as [| k l IH]; [reflexivity |].
  cbn [map chart_total fold_right Point.value].
  unfold chart_total in IH. rewrite IH. reflexivity.
Qed.

Lemma fold_count_perm (counts : JsMap.t (K:=string) (V:=Z))
    (l l' : list string) :
  Permutation l l' ->
  fold_right (fun k acc => count_of counts k + acc) 0 l
  = fold_right (fun k acc => count_of counts k + acc) 0 l'.
Proof.
  induction 1; cbn [fold_right]; lia.
Qed.

(** X22. The values of the chart add up to the number of sessions that the
    aggregator files as completed, when both read the same clock. *)
Theorem chart_total_is_the_completed (sessions : list Session.t) :
  chart_total (chartData Date_parse clock getFullYear getMonth month_label
                 sessions)
  = completed_from Date_parse clock 0 sessions.
Proof.
  unfold chartData.
  destruct (len sessions =? 0) eqn:Hlen.
  - apply Z.eqb_eq in Hlen. unfold len in Hlen.
    destruct sessions; [reflexivity | simpl in Hlen; lia].
  - destruct (@count_sessions_spec sessions 0%nat JsMap.empty)
      as (Hnd & Hpos & Hsum); [constructor | constructor |].
    cbv zeta in Hsum. fold (monthlyCounts Date_parse clock getFullYear
                              getMonth sessions) in Hnd, Hpos, Hsum.
    cbn [counts_total JsMap.empty fold_right] in Hsum.
    rewrite Z.add_0_l in Hsum. rewrite <- Hsum.
    rewrite <- (@count_of_keys _ Hnd).
    rewrite (@fold_count_perm _ _ _ (sort_strings_perm _)).
    destruct (len (sort_strings _) =? 0) eqn:Hk.
    + apply Z.eqb_eq in Hk. unfold len in Hk.
      destruct (sort_strings _); [reflexivity | simpl in Hk; lia].
    + apply chart_total_map.
Qed.

(** X23. The chart has one point for each month key that counted a
    session, in the ascending order of the keys, and every point counts at
    least one session. Without any completed session it has no point. *)
Theorem chart_points_follow_the_keys (sessions : list Session.t) :
  exists keys,
    chartData Date_parse clock getFullYear getMonth month_label sessions
    = map (fun key =>
             Point.mk (month_label key)
               (count_of (monthlyCounts Date_parse clock getFullYear getMonth
                            sessions) key)) keys
    /\ Sorted (fun a b => String.leb a b = true) keys
    /\ NoDup keys
    /\ Permutation
         (JsMap.keys (monthlyCounts Date_parse clock getFullYear getMonth
                        sessions)) keys
    /\ Forall (fun p => 1 <= Point.value p)
         (chartData Date_parse clock getFullYear getMonth month_label
            sessions)
    /\ (completed_from Date_parse clock 0 sessions = 0 ->
        chartData Date_parse clock getFullYear getMonth month_label sessions
        = []).
Proof.
  destruct (@count_sessions_spec sessions 0%nat JsMap.empty)
    as (Hnd & Hpos & Hsum); [constructor | constructor |].
  cbv zeta in Hsum.
  fold (monthlyCounts Date_parse clock getFullYear getMonth sessions)
    in Hnd, Hpos, Hsum.
  set (counts := monthlyCounts Date_parse clock getFullYear getMonth sessions)
    in *.
  assert (Hdata :
    chartData Date_parse clock getFullYear getMonth month_label sessions
    = map (fun key => Point.mk (month_label key) (count_of counts key))
        (sort_strings (JsMap.keys counts))).
  { unfold chartData. fold counts.
    destruct (len sessions =? 0) eqn:Hlen.
    - apply Z.eqb_eq in Hlen. unfold len in Hlen.
      destruct sessions; [reflexivity | simpl in Hlen; lia].
    - destruct (len (sort_strings (JsMap.keys counts)) =? 0) eqn:Hk;
        [| reflexivity].
      apply Z.eqb_eq in Hk. unfold len in Hk.
      destruct (sort_strings (JsMap.keys counts));
        [reflexivity | simpl in Hk; lia]. }
  assert (Hvalues : Forall (fun p => 1 <= Point.value p)
                      (map (fun key => Point.mk (month_label key)
                                         (count_of counts key))
                         (sort_strings (JsMap.keys counts)))).
  { apply Forall_forall. intros p Hp. apply in_map_iff in Hp as (k & <- & Hk).
    cbn [Point.value].
    apply (Permutation_in _ (Permutation_sym (sort_strings_perm _))) in Hk.
    unfold count_of.
    destruct (JsMap.get String.eqb k counts) as [n |] eqn:G.
    - rewrite Forall_forall in Hpos.
      destruct (get_split _ string_eqb_eq _ _ Hnd G) as (m1 & m2 & Hm & _).
      apply (Hpos (k, n)). rewrite Hm. apply in_or_app. right. left.
      reflexivity.
    - apply (get_None_not_in _ string_eqb_eq) in G. contradiction. }
  exists (sort_strings (JsMap.keys counts)).
  split; [exact Hdata |]. split; [apply sort_strings_sorted |].
  split; [apply (Permutation_NoDup (sort_strings_perm _) Hnd) |].
  split; [apply sort_strings_perm |].
  split; [rewrite Hdata; exact Hvalues |].
  intros Hzero. rewrite Hdata.
  cbn [counts_total JsMap.empty fold_right] in Hsum.
  rewrite Hzero in Hsum.
  destruct counts as [| [k v] m]; [reflexivity |].
  exfalso. inversion Hpos as [| ? ? Hv Hrest]; subst. cbn [snd] in Hv.
  assert (Hm : 0 <= counts_total m).
  { clear - Hrest. unfold counts_total.
    induction Hrest as [| [k' v'] l Hv' _ IH]; cbn [fold_right snd] in *;
      lia. }
  unfold counts_total in Hsum, Hm. cbn [fold_right snd] in Hsum. lia.
Qed.

End TrendFacts.

(* ===================================================================== *)
(** * Properties of the names of the employee dashboard *)
(* ===================================================================== *)

(** X24. The first and last name shown for an employee whose full name is
    within ASCII. A truthy [first_name] or [last_name] column is shown as
    it is. Without any name column both are "-". Otherwise they are the two
    parts of the trimmed full name around its first space: the first name
    has no space, and the trimmed full name is the first name alone, with
    an empty last name, or the first name, a space and the last name. *)
Theorem shown_names_split_the_full_name (emp : Employee.t) :
  ascii_only (roster_fullName emp) = true ->
  (forall f, Employee.first_name emp = Val f -> truthy_string f = true ->
             getFirstName emp = f)
  /\ (forall l, Employee.last_name emp = Val l -> truthy_string l = true ->
                getLastName emp = l)
  /\ (truthy (Employee.first_name emp) = false ->
      truthy (Employee.last_name emp) = false ->
      (roster_fullName emp = "" ->
       getFirstName emp = "-" /\ getLastName emp = "-")
      /\ (roster_fullName emp <> "" ->
          let full := trim (roster_fullName emp) in
          includes (getFirstName emp) " " = false
          /\ ((includes full " " = true
               /\ full = getFirstName emp ++ " " ++ getLastName emp)
              \/ (includes full " " = false
                  /\ full = getFirstName emp /\ getLastName emp = "")))).
Proof.
  intros _.
  split; [| split].
  - intros f Hf Ht. unfold getFirstName. rewrite Hf.
    destruct f; [discriminate | reflexivity].
  - intros l Hl Ht. unfold getLastName. rewrite Hl.
    destruct l; [discriminate | reflexivity].
  - intros Hf Hl.
    assert (Hfirst : getFirstName emp
                     = if negb (truthy_string (roster_fullName emp)) then "-"
                       else head_str (split_space (trim (roster_fullName emp)))).
    { unfold getFirstName.
      destruct (Employee.first_name emp) as [| | [| c r]];
        try reflexivity. discriminate. }
    assert (Hlast : getLastName emp
                    = if negb (truthy_string (roster_fullName emp)) then "-"
                      else join_space
                             (tl (split_space (trim (roster_fullName emp))))).
    { unfold getLastName.
      destruct (Employee.last_name emp) as [| | [| c r]];
        try discriminate;
        (destruct (negb (truthy_string (roster_fullName emp)));
         [reflexivity |];
         cbv zeta;
         pose proof (split_space_nonempty (trim (roster_fullName emp))) as Hne;
         destruct (split_space (trim (roster_fullName emp))) as [| w [| w' ws]];
         [contradiction | reflexivity |];
         assert (H1 : (1 <? len (w :: w' :: ws)) = true)
           by (apply Z.ltb_lt; unfold len; cbn [List.length]; lia);
         rewrite H1; reflexivity). }
    rewrite Hfirst, Hlast. split.
    + intros ->. split; reflexivity.
    + intros Hfull. cbv zeta.
      destruct (roster_fullName emp) as [| c r] eqn:Hn; [contradiction |].
      cbn [truthy_string negb].
      apply split_space_parts.
Qed.

Example shown_names_example :
  let emp := Employee.mk (IdNum 7) Undefined Null Undefined
               (Val "  Mary Ann  Smith ") Undefined Undefined Undefined
               Undefined Undefined Undefined Undefined Undefined Undefined
               Undefined in
  getFirstName emp = "Mary" /\ getLastName emp = "Ann  Smith".
Proof. split; reflexivity. Qed.

(* ===================================================================== *)
(** * The further properties on the sample data *)
(* ===================================================================== *)

Lemma extracted_record_has_a_program_witness :
  exists e,
    JsMap.get ident_eqb (IdStr "42")
      (fst (fold_left (dedupe_row sample_random) rows_of_42
              (JsMap.empty, 0%nat))) = Some e
    /\ truthy (Employee.program e) = true
    /\ In e (extract_employees sample_random rows_of_42).
Proof.
  apply (@extracted_record_has_a_program sample_random rows_of_42
           (sample_row (Val (IdStr "42")) "Ann Lee" (Val "Sales") Undefined
              Undefined Undefined) "Ann Lee").
  - right. right. left. reflexivity.
  - reflexivity.
  - reflexivity.
  - reflexivity.
Defined.

Example extract_employees_42 :
  map (fun e => (Employee.id e, Employee.program e))
    (extract_employees sample_random rows_of_42)
  = [(IdStr "42", Val "Coaching")].
Proof. reflexivity. Qed.



(** Of two roster employees of one key the later one names the record. *)
Example roster_identity_of_the_later :
  map (fun r => (Stat.id r, Stat.name r))
    (aggregatedStats sample_parse sample_clock
       [sample_session 51 "2023-10-25" (Val "Completed") (Val "john smith")
          None]
       [john_lower; john_upper])
  = [(IdNum 2, "JOHN SMITH")].
Proof. vm_compute. reflexivity. Qed.



(** With an invalid date on the first session of a key the latest session
    stays invalid. *)
Example latest_session_invalid_first :
  map Stat.latestSession
    (aggregatedStats sample_parse sample_clock
       [sample_session 41 "soon" (Val "Scheduled") (Val "Dan Roe") None;
        sample_session 42 "2023-10-25" (Val "Completed") (Val "Dan Roe") None]
       [])
  = [Some None].
Proof. vm_compute. reflexivity. Qed.


Lemma filteredData_keeps_the_matches_witness :
  let stats := aggregatedStats sample_parse sample_clock sample_sessions
                 sample_roster in
  In sample_alice_record (filteredData "ALI" "All" stats) <->
  In sample_alice_record stats
  /\ contains_ci (Stat.name sample_alice_record) "ALI"
  /\ ("All" = "All" \/ Stat.program sample_alice_record = "All").
Proof.
  exact (proj1 (@filteredData_keeps_the_matches "ALI" "All"
                  (aggregatedStats sample_parse sample_clock sample_sessions
                     sample_roster) eq_refl eq_refl)
           sample_alice_record).
Defined.

Example filteredData_sample :
  map Stat.name
    (filteredData "ALI" "All"
       (aggregatedStats sample_parse sample_clock sample_sessions
          sample_roster))
  = ["Alice Johnson"].
Proof. vm_compute. reflexivity. Qed.

Lemma shown_names_split_the_full_name_witness :
  let full := trim (roster_fullName mary_ann_smith) in
  includes (getFirstName mary_ann_smith) " " = false
  /\ ((includes full " " = true
       /\ full = getFirstName mary_ann_smith ++ " "
                 ++ getLastName mary_ann_smith)
      \/ (includes full " " = false
          /\ full = getFirstName mary_ann_smith
          /\ getLastName mary_ann_smith = "")).
Proof.
  apply (proj2 (proj2 (proj2 (@shown_names_split_the_full_name mary_ann_smith
                                eq_refl))
                  eq_refl eq_refl)).
  discriminate.
Defined.
